(** * The single-leader broadcast protocol of
      [optuna/integration/pytorch_distributed.py]

    [TorchDistributedTrial] wraps an [optuna.trial.Trial] that exists on the
    process of rank 0 only.  Every method is called on every process of the
    group; rank 0 asks the wrapped trial, and the answer travels to the other
    processes through [torch.distributed] collectives.

    The Python code of one process is embedded as a term of the monad [Proc]:
    local steps ([torch.empty], [dist.get_rank], the assertion on
    [self._delegate], the call of a trial method) and the two blocking
    collectives [dist.broadcast] and [dist.barrier].  A group of processes is
    run in lock step by [run_group]: every process runs alone up to its next
    collective, and the collective completes once all of them have reached it.

    PyTorch, pickle and the wrapped trial are not part of the file; they are
    taken as interfaces ([PyNum], [Torch], [Pickle], [TrialModel]). *)

From Stdlib Require Import ZArith List String Bool Lia.
From Stdlib Require Import Strings.Byte.
Import ListNotations.
Local Open Scope Z_scope.

Set Implicit Arguments.
Local Set Warnings "-register-all".

(** ** Exceptions and fallible results *)

Inductive exn : Type :=
| AssertionError
| AttributeError
| IndexError
| RuntimeError
| TypeError
| ValueError
| PicklingError
| UnpicklingError
| TrialError (msg : string).

Inductive result (A : Type) : Type :=
| Ok (a : A)
| Err (e : exn).

Arguments Ok {A} a.
Arguments Err {A} e.

Definition rbind {A B : Type} (r : result A) (k : A -> result B) : result B :=
  match r with
  | Ok a => k a
  | Err e => Err e
  end.

Fixpoint rmapM {A B : Type} (f : A -> result B) (l : list A) : result (list B) :=
  match l with
  | [] => Ok []
  | a :: l' =>
      rbind (f a) (fun b => rbind (rmapM f l') (fun bs => Ok (b :: bs)))
  end.

(** ** Python numbers that the protocol does not look into *)

Class PyNum : Type := {
  (** Python [float], an IEEE double. *)
  pyfloat : Type;
  (** An element of a [torch.float] tensor, an IEEE single. *)
  f32 : Type;
  (** [Tensor.item()] on a [torch.float] tensor widens the element. *)
  of_f32 : f32 -> pyfloat;
  (** [bool(x)] for a float. *)
  float_truth : pyfloat -> bool;
  (** [int(x)] for a float (raises on infinities and NaN). *)
  float_trunc : pyfloat -> result Z;
  (** [int(s)] for a string. *)
  int_of_str : string -> result Z
}.

Inductive dtype : Type := torch_float | torch_int | torch_uint8.

Inductive device : Type := cpu | cuda (index : Z).

Definition dtype_eqb (a b : dtype) : bool :=
  match a, b with
  | torch_float, torch_float | torch_int, torch_int
  | torch_uint8, torch_uint8 => true
  | _, _ => false
  end.

Section Model.

Context {PN : PyNum}.

(** ** Python values *)

Inductive value : Type :=
| VNone
| VBool (b : bool)
| VInt (z : Z)
| VFloat (x : pyfloat)
| VStr (s : string)
| VDatetime (micros : Z)
| VDict (items : list (string * value))
| VObject (cls : string) (state : list (string * value)).

(** [bool(v)] *)
Definition truthy (v : value) : bool :=
  match v with
  | VNone => false
  | VBool b => b
  | VInt z => negb (z =? 0)
  | VFloat x => float_truth x
  | VStr s => negb (String.eqb s "")
  | VDatetime _ => true
  | VDict items => match items with [] => false | _ => true end
  | VObject _ _ => true
  end.

(** [int(v)] *)
Definition py_int (v : value) : result Z :=
  match v with
  | VBool b => Ok (Z.b2z b)
  | VInt z => Ok z
  | VFloat x => float_trunc x
  | VStr s => int_of_str s
  | _ => Err TypeError
  end.

(** ** Tensors *)

Inductive cell : Type :=
| CInt (z : Z)
| CFloat (x : f32).

Record tensor : Type := {
  t_dtype : dtype;
  t_data : list cell;
  t_device : device
}.

(** [tensor.shape[0]] of a one-dimensional tensor *)
Definition shape0 (t : tensor) : Z := Z.of_nat (List.length (t_data t)).

(** [tensor.cuda(torch.device(rank))] *)
Definition tensor_cuda (t : tensor) (rank : Z) : tensor :=
  {| t_dtype := t_dtype t; t_data := t_data t; t_device := cuda rank |}.

Definition cell_value (c : cell) : value :=
  match c with
  | CInt z => VInt z
  | CFloat x => VFloat (of_f32 x)
  end.

(** [tensor.item()]: defined on one-element tensors only. *)
Definition item (t : tensor) : result value :=
  match t_data t with
  | [c] => Ok (cell_value c)
  | _ => Err ValueError
  end.

(** [tensor.tolist()] *)
Definition tolist (t : tensor) : list value := map cell_value (t_data t).

(** What PyTorch does with a Python scalar that is not an exactly
    representable integer of the tensor's kind: rounding a double to a single,
    converting between integers and floats, an integer out of range, or a
    value that is no number at all.  [Err] stands for the exception PyTorch
    raises. *)
Class Torch : Type := {
  coerce : dtype -> value -> result cell
}.

Context {TO : Torch}.

Definition in_range (dt : dtype) (z : Z) : bool :=
  match dt with
  | torch_uint8 => (0 <=? z) && (z <? 256)
  | torch_int => (- 2 ^ 31 <=? z) && (z <? 2 ^ 31)
  | torch_float => false
  end.

(** The element that [buffer[i] = v] writes into a tensor of kind [dt].
    Booleans and integers in range are stored as they are. *)
Definition store (dt : dtype) (v : value) : result cell :=
  match dt, v with
  | torch_float, _ => coerce dt v
  | _, VBool b => Ok (CInt (Z.b2z b))
  | _, VInt z => if in_range dt z then Ok (CInt z) else coerce dt v
  | _, _ => coerce dt v
  end.

(** [buffer[0] = v] *)
Definition setitem0 (t : tensor) (v : value) : result tensor :=
  match t_data t with
  | [] => Err IndexError
  | _ :: rest =>
      rbind (store (t_dtype t) v) (fun c =>
      Ok {| t_dtype := t_dtype t; t_data := c :: rest; t_device := t_device t |})
  end.

(** ** pickle *)

Class Pickle : Type := {
  dumps : value -> result (list byte);
  loads : list byte -> result value
}.

Context {PK : Pickle}.

(** A value is serializable when pickle writes it and reads it back. *)
Definition serializable (v : value) : Prop :=
  exists b, dumps v = Ok b /\ loads b = Ok v.

Definition byte_cell (b : byte) : cell := CInt (Z.of_N (Byte.to_N b)).

(** [torch.tensor(b, dtype=torch.uint8)] for a bytearray [b] *)
Definition tensor_of_bytes (b : list byte) : tensor :=
  {| t_dtype := torch_uint8; t_data := map byte_cell b; t_device := cpu |}.

(** One element of [bytearray(l)]: an integer in [range(256)]. *)
Definition byte_of_value (v : value) : result byte :=
  match v with
  | VInt z =>
      if (0 <=? z) && (z <? 256) then
        match Byte.of_N (Z.to_N z) with
        | Some b => Ok b
        | None => Err ValueError
        end
      else Err ValueError
  | VBool b => Ok (if b then x01 else x00)
  | _ => Err TypeError
  end.

(** [bytearray(l)] for a list [l] *)
Definition bytearray (l : list value) : result (list byte) := rmapM byte_of_value l.

Definition _to_tensor (obj : value) : result tensor :=
  rbind (dumps obj) (fun b => Ok (tensor_of_bytes b)).

Definition _from_tensor (t : tensor) : result value :=
  rbind (bytearray (tolist t)) (fun b => loads b).

(** ** The wrapped trial *)

(** The methods and properties of [optuna.trial.Trial] that the wrapper
    forwards, with their arguments. *)
Inductive method : Type :=
| M_suggest_float (name : string) (low high step : value) (log : bool)
| M_suggest_uniform (name : string) (low high : value)
| M_suggest_loguniform (name : string) (low high : value)
| M_suggest_discrete_uniform (name : string) (low high q : value)
| M_suggest_int (name : string) (low high step : value) (log : bool)
| M_suggest_categorical (name : string) (choices : list value)
| M_report (v step : value)
| M_should_prune
| M_set_user_attr (key : string) (v : value)
| M_set_system_attr (key : string) (v : value)
| M_number
| M_params
| M_distributions
| M_user_attrs
| M_system_attrs
| M_datetime_start.

(** A trial is an object with state; a call changes the state and returns a
    value or raises. *)
Class TrialModel : Type := {
  Trial : Type;
  invoke : Trial -> method -> Trial * result value
}.

Context {TM : TrialModel}.

(** ** One process of the group *)

(** What a process has done, in program order. *)
Inductive event : Type :=
| EvEmpty (n : Z) (dt : dtype)
| EvAssertDelegate
| EvDelegate (m : method)
| EvBroadcastEnter (buf : tensor) (src : Z)
| EvBroadcastExit (buf : tensor)
| EvBarrierEnter
| EvBarrierExit.

Record participant : Type := {
  (** [dist.get_rank()] *)
  p_rank : Z;
  (** [dist.get_backend()] *)
  p_backend : string;
  (** [self._delegate] *)
  p_delegate : option Trial;
  (** the memory that [torch.empty] hands out, not initialised *)
  p_uninit : dtype -> nat -> cell;
  p_log : list event
}.

Definition log (p : participant) (e : event) : participant :=
  {| p_rank := p_rank p; p_backend := p_backend p; p_delegate := p_delegate p;
     p_uninit := p_uninit p; p_log := p_log p ++ [e] |}.

Definition set_delegate (p : participant) (t : Trial) : participant :=
  {| p_rank := p_rank p; p_backend := p_backend p; p_delegate := Some t;
     p_uninit := p_uninit p; p_log := p_log p |}.

(** [torch.empty(n, dtype=dt)] on process [p], for [0 <= n] *)
Definition uninit (p : participant) (n : Z) (dt : dtype) : tensor :=
  {| t_dtype := dt;
     t_data := map (p_uninit p dt) (seq 0 (Z.to_nat n));
     t_device := cpu |}.

(** ** Programs of one process *)

Inductive Proc (A : Type) : Type :=
| Ret (a : A)
| Raise (e : exn)
| GetRank (k : Z -> Proc A)
| GetBackend (k : string -> Proc A)
| Empty (n : Z) (dt : dtype) (k : tensor -> Proc A)
| AssertDelegate (k : Proc A)
| CallDelegate (m : method) (k : value -> Proc A)
| Broadcast (buf : tensor) (src : Z) (k : tensor -> Proc A)
| Barrier (k : Proc A).

Arguments Ret {A} a.
Arguments Raise {A} e.
Arguments GetRank {A} k.
Arguments GetBackend {A} k.
Arguments Empty {A} n dt k.
Arguments AssertDelegate {A} k.
Arguments CallDelegate {A} m k.
Arguments Broadcast {A} buf src k.
Arguments Barrier {A} k.

Fixpoint bind {A B : Type} (c : Proc A) (f : A -> Proc B) : Proc B :=
  match c with
  | Ret a => f a
  | Raise e => Raise e
  | GetRank k => GetRank (fun r => bind (k r) f)
  | GetBackend k => GetBackend (fun s => bind (k s) f)
  | Empty n dt k => Empty n dt (fun t => bind (k t) f)
  | AssertDelegate k => AssertDelegate (bind k f)
  | CallDelegate m k => CallDelegate m (fun v => bind (k v) f)
  | Broadcast buf src k => Broadcast buf src (fun t => bind (k t) f)
  | Barrier k => Barrier (bind k f)
  end.

Notation "x <- c1 ;; c2" := (bind c1 (fun x => c2))
  (at level 61, c1 at next level, right associativity).
Notation "' pat <- c1 ;; c2" := (bind c1 (fun x => match x with pat => c2 end))
  (at level 61, pat pattern, c1 at next level, right associativity).
Notation "c1 ;; c2" := (bind c1 (fun _ => c2))
  (at level 61, right associativity).

Definition lift {A : Type} (r : result A) : Proc A :=
  match r with
  | Ok a => Ret a
  | Err e => Raise e
  end.

Definition torch_empty (n : Z) (dt : dtype) : Proc tensor := Empty n dt Ret.
Definition dist_get_rank : Proc Z := GetRank Ret.
Definition dist_get_backend : Proc string := GetBackend Ret.
Definition dist_broadcast (buf : tensor) (src : Z) : Proc tensor := Broadcast buf src Ret.
Definition dist_barrier : Proc unit := Barrier (Ret tt).
(** [assert self._delegate is not None] *)
Definition assert_delegate : Proc unit := AssertDelegate (Ret tt).
(** [self._delegate.m(...)] *)
Definition delegate (m : method) : Proc value := CallDelegate m Ret.

(** ** The two broadcasters *)

Definition _call_and_communicate (func : Proc value) (dt : dtype) : Proc value :=
  buffer <- torch_empty 1 dt ;;
  rank <- dist_get_rank ;;
  buffer <- (if rank =? 0 then
               result <- func ;;
               lift (setitem0 buffer result)
             else Ret buffer) ;;
  backend <- dist_get_backend ;;
  buffer <- Ret (if String.eqb backend "nccl" then tensor_cuda buffer rank else buffer) ;;
  buffer <- dist_broadcast buffer 0 ;;
  lift (item buffer).

Definition _call_and_communicate_obj (func : Proc value) : Proc value :=
  size_buffer <- torch_empty 1 torch_int ;;
  rank <- dist_get_rank ;;
  '(buffer, size_buffer) <-
     (if rank =? 0 then
        result <- func ;;
        buffer <- lift (_to_tensor result) ;;
        size_buffer <- lift (setitem0 size_buffer (VInt (shape0 buffer))) ;;
        Ret (Some buffer, size_buffer)
      else Ret (None, size_buffer)) ;;
  backend <- dist_get_backend ;;
  size_buffer <- Ret (if String.eqb backend "nccl"
                      then tensor_cuda size_buffer rank else size_buffer) ;;
  size_buffer <- dist_broadcast size_buffer 0 ;;
  buffer_size <- lift (rbind (item size_buffer) py_int) ;;
  buffer <- (if negb (rank =? 0) then
               b <- torch_empty buffer_size torch_uint8 ;; Ret (Some b)
             else Ret buffer) ;;
  buffer <- match buffer with
            | Some b => Ret b
            | None => Raise AssertionError
            end ;;
  backend <- dist_get_backend ;;
  buffer <- Ret (if String.eqb backend "nccl" then tensor_cuda buffer rank else buffer) ;;
  buffer <- dist_broadcast buffer 0 ;;
  lift (_from_tensor buffer).

(** ** TorchDistributedTrial *)

(** The closure [func] of a method: the assertion, then the call. *)
Definition func_of (m : method) : Proc value :=
  assert_delegate ;; delegate m.

Definition suggest_float (name : string) (low high step : value) (log : bool) : Proc value :=
  _call_and_communicate (func_of (M_suggest_float name low high step log)) torch_float.

Definition suggest_uniform (name : string) (low high : value) : Proc value :=
  _call_and_communicate (func_of (M_suggest_uniform name low high)) torch_float.

Definition suggest_loguniform (name : string) (low high : value) : Proc value :=
  _call_and_communicate (func_of (M_suggest_loguniform name low high)) torch_float.

Definition suggest_discrete_uniform (name : string) (low high q : value) : Proc value :=
  _call_and_communicate (func_of (M_suggest_discrete_uniform name low high q)) torch_float.

Definition suggest_int (name : string) (low high step : value) (log : bool) : Proc value :=
  _call_and_communicate (func_of (M_suggest_int name low high step log)) torch_int.

Definition suggest_categorical (name : string) (choices : list value) : Proc value :=
  _call_and_communicate_obj (func_of (M_suggest_categorical name choices)).

(** The three methods without a result: rank 0 calls the trial, then all
    processes meet at the barrier.  Python returns [None]. *)
Definition leader_only (m : method) : Proc value :=
  rank <- dist_get_rank ;;
  (if rank =? 0 then
     assert_delegate ;;
     _ <- delegate m ;;
     Ret tt
   else Ret tt) ;;
  dist_barrier ;;
  Ret VNone.

Definition report (v step : value) : Proc value := leader_only (M_report v step).

(** [func] of [should_prune] wraps the answer in [bool(...)]. *)
Definition should_prune_func : Proc value :=
  assert_delegate ;;
  r <- delegate M_should_prune ;;
  Ret (VBool (truthy r)).

Definition should_prune : Proc value :=
  _call_and_communicate should_prune_func torch_uint8.

Definition set_user_attr (key : string) (v : value) : Proc value :=
  leader_only (M_set_user_attr key v).

Definition set_system_attr (key : string) (v : value) : Proc value :=
  leader_only (M_set_system_attr key v).

Definition number : Proc value := _call_and_communicate (func_of M_number) torch_int.
Definition params : Proc value := _call_and_communicate_obj (func_of M_params).
Definition distributions : Proc value := _call_and_communicate_obj (func_of M_distributions).
Definition user_attrs : Proc value := _call_and_communicate_obj (func_of M_user_attrs).
Definition system_attrs : Proc value := _call_and_communicate_obj (func_of M_system_attrs).
Definition datetime_start : Proc value := _call_and_communicate_obj (func_of M_datetime_start).

(** The wrapper offers the methods of the trial under the same names:
    [facade m] is the wrapper's method for the trial's method [m]. *)
Definition facade (m : method) : Proc value :=
  match m with
  | M_suggest_float name low high step lg => suggest_float name low high step lg
  | M_suggest_uniform name low high => suggest_uniform name low high
  | M_suggest_loguniform name low high => suggest_loguniform name low high
  | M_suggest_discrete_uniform name low high q => suggest_discrete_uniform name low high q
  | M_suggest_int name low high step lg => suggest_int name low high step lg
  | M_suggest_categorical name choices => suggest_categorical name choices
  | M_report v step => report v step
  | M_should_prune => should_prune
  | M_set_user_attr key v => set_user_attr key v
  | M_set_system_attr key v => set_system_attr key v
  | M_number => number
  | M_params => params
  | M_distributions => distributions
  | M_user_attrs => user_attrs
  | M_system_attrs => system_attrs
  | M_datetime_start => datetime_start
  end.

(** [report], [set_user_attr] and [set_system_attr] return nothing. *)
Definition side_effecting (m : method) : bool :=
  match m with
  | M_report _ _ | M_set_user_attr _ _ | M_set_system_attr _ _ => true
  | _ => false
  end.

(** ** Running one process up to its next collective *)

Inductive status (A : Type) : Type :=
| Done (a : A)
| Failed (e : exn)
| AtBroadcast (buf : tensor) (src : Z) (k : tensor -> Proc A)
| AtBarrier (k : Proc A).

Arguments Done {A} a.
Arguments Failed {A} e.
Arguments AtBroadcast {A} buf src k.
Arguments AtBarrier {A} k.

Fixpoint run_local {A : Type} (p : participant) (c : Proc A) : participant * status A :=
  match c with
  | Ret a => (p, Done a)
  | Raise e => (p, Failed e)
  | GetRank k => run_local p (k (p_rank p))
  | GetBackend k => run_local p (k (p_backend p))
  | Empty n dt k =>
      if n <? 0 then (p, Failed RuntimeError)
      else run_local (log p (EvEmpty n dt)) (k (uninit p n dt))
  | AssertDelegate k =>
      match p_delegate p with
      | Some _ => run_local (log p EvAssertDelegate) k
      | None => (log p EvAssertDelegate, Failed AssertionError)
      end
  | CallDelegate m k =>
      match p_delegate p with
      | Some t =>
          let p' := set_delegate (log p (EvDelegate m)) (fst (invoke t m)) in
          match snd (invoke t m) with
          | Ok v => run_local p' (k v)
          | Err e => (p', Failed e)
          end
      | None => (log p (EvDelegate m), Failed AttributeError)
      end
  | Broadcast buf src k => (log p (EvBroadcastEnter buf src), AtBroadcast buf src k)
  | Barrier k => (log p EvBarrierEnter, AtBarrier k)
  end.

(** ** Running the group *)

Inductive outcome (A : Type) : Type :=
| Returned (a : A)
| Raised (e : exn)
(** waiting in a collective that will never complete *)
| Blocked
(** the run was cut off *)
| Unfinished.

Arguments Returned {A} a.
Arguments Raised {A} e.
Arguments Blocked {A}.
Arguments Unfinished {A}.

Fixpoint omapM {A B : Type} (f : A -> option B) (l : list A) : option (list B) :=
  match l with
  | [] => Some []
  | a :: l' =>
      match f a, omapM f l' with
      | Some b, Some bs => Some (b :: bs)
      | _, _ => None
      end
  end.

Definition is_broadcast {A : Type} (src : Z) (st : status A) : bool :=
  match st with
  | AtBroadcast _ s _ => s =? src
  | _ => false
  end.

(** The buffer that the process of rank [src] passed to the broadcast. *)
Definition source_buffer {A : Type} (src : Z) (sts : list (participant * status A))
  : option tensor :=
  match find (fun ps => p_rank (fst ps) =? src) sts with
  | Some (_, AtBroadcast buf _ _) => Some buf
  | _ => None
  end.

(** A receiver must pass a buffer of the kind and size of the source's. *)
Definition compatible (buf srcbuf : tensor) : bool :=
  dtype_eqb (t_dtype buf) (t_dtype srcbuf)
  && Nat.eqb (List.length (t_data buf)) (List.length (t_data srcbuf)).

(** The broadcast overwrites the buffer in place with the source's elements. *)
Definition receive (buf srcbuf : tensor) : tensor :=
  {| t_dtype := t_dtype buf; t_data := t_data srcbuf; t_device := t_device buf |}.

Definition resume_broadcast {A : Type} (srcbuf : tensor) (ps : participant * status A)
  : option (participant * Proc A) :=
  match ps with
  | (p, AtBroadcast buf _ k) =>
      if compatible buf srcbuf then
        Some (log p (EvBroadcastExit (receive buf srcbuf)), k (receive buf srcbuf))
      else None
  | _ => None
  end.

Definition resume_barrier {A : Type} (ps : participant * status A)
  : option (participant * Proc A) :=
  match ps with
  | (p, AtBarrier k) => Some (log p EvBarrierExit, k)
  | _ => None
  end.

(** A collective completes when every process of the group is waiting in the
    same collective (for a broadcast: with the same source, the source among
    them, and matching buffers).  Otherwise it never completes. *)
Definition collective {A : Type} (sts : list (participant * status A))
  : option (list (participant * Proc A)) :=
  match sts with
  | (_, AtBarrier _) :: _ => omapM resume_barrier sts
  | (_, AtBroadcast _ src _) :: _ =>
      if forallb (fun ps => is_broadcast src (snd ps)) sts then
        match source_buffer src sts with
        | Some sb => omapM (resume_broadcast sb) sts
        | None => None
        end
      else None
  | _ => None
  end.

Definition finalize {A : Type} (waiting : outcome A) (ps : participant * status A)
  : participant * outcome A :=
  (fst ps,
   match snd ps with
   | Done a => Returned a
   | Failed e => Raised e
   | _ => waiting
   end).

Definition step_all {A : Type} (g : list (participant * Proc A))
  : list (participant * status A) :=
  map (fun pc => run_local (fst pc) (snd pc)) g.

(** [fuel] bounds the number of collectives. *)
Fixpoint run_group {A : Type} (fuel : nat) (g : list (participant * Proc A))
  : list (participant * outcome A) :=
  match fuel with
  | O => map (finalize Unfinished) (step_all g)
  | S fuel' =>
      match collective (step_all g) with
      | Some g' => run_group fuel' g'
      | None => map (finalize Blocked) (step_all g)
      end
  end.

(** Every process of the group calls the same method. *)
Definition call_on_all {A : Type} (c : Proc A) (w : list participant)
  : list (participant * Proc A) :=
  map (fun p => (p, c)) w.

(** The ranks of a group of [n] processes are [0 .. n-1], and a group has at
    least one process. *)
Definition well_formed (w : list participant) : Prop :=
  w <> [] /\ map p_rank w = map Z.of_nat (seq 0 (List.length w)).

(** ** Vocabulary for the statements *)

(** [p] after the events [es]. *)
Definition logs (p : participant) (es : list event) : participant :=
  fold_left log es p.

(** The buffer as it enters the broadcast: moved to the GPU of the process
    when the backend is nccl. *)
Definition to_device (p : participant) (t : tensor) : tensor :=
  if String.eqb (p_backend p) "nccl" then tensor_cuda t (p_rank p) else t.

Definition outcome_of {A : Type} (r : result A) : outcome A :=
  match r with
  | Ok a => Returned a
  | Err e => Raised e
  end.

(** The trial methods called, in order, among the events [es]. *)
Fixpoint delegate_calls (es : list event) : list method :=
  match es with
  | [] => []
  | EvDelegate m :: es' => m :: delegate_calls es'
  | _ :: es' => delegate_calls es'
  end.

(** An event that reads [self._delegate]. *)
Definition touches_delegate (e : event) : bool :=
  match e with
  | EvAssertDelegate | EvDelegate _ => true
  | _ => false
  end.

(** An event that enters a collective. *)
Definition enters_collective (e : event) : bool :=
  match e with
  | EvBroadcastEnter _ _ | EvBarrierEnter => true
  | _ => false
  end.

(** No path of the program [c], run on a process with the given rank, backend
    and fresh memory, reaches [self._delegate], whatever the broadcasts
    deliver. *)
Fixpoint quiet {A : Type} (rank : Z) (backend : string) (un : dtype -> nat -> cell)
  (c : Proc A) : Prop :=
  match c with
  | Ret _ | Raise _ => True
  | GetRank k => quiet rank backend un (k rank)
  | GetBackend k => quiet rank backend un (k backend)
  | Empty n dt k =>
      quiet rank backend un
        (k {| t_dtype := dt; t_data := map (un dt) (seq 0 (Z.to_nat n)); t_device := cpu |})
  | AssertDelegate _ | CallDelegate _ _ => False
  | Broadcast _ _ k => forall t, quiet rank backend un (k t)
  | Barrier k => quiet rank backend un k
  end.

(** [p'] is [p] with more events in the log, none of which reads
    [self._delegate]; the trial reference is the same. *)
Definition untouched (p p' : participant) : Prop :=
  p_rank p' = p_rank p /\ p_backend p' = p_backend p /\
  p_uninit p' = p_uninit p /\ p_delegate p' = p_delegate p /\
  exists es, p_log p' = p_log p ++ es /\ existsb touches_delegate es = false.

(** [_call_and_communicate_obj] from the return of the first broadcast on
    (lines 212 to 219), for a process that read [rank] and holds [buffer]. *)
Definition receive_payload (rank : Z) (buffer : option tensor) (size_buffer : tensor)
  : Proc value :=
  buffer_size <- lift (rbind (item size_buffer) py_int) ;;
  buffer <- (if negb (rank =? 0) then
               b <- torch_empty buffer_size torch_uint8 ;; Ret (Some b)
             else Ret buffer) ;;
  buffer <- match buffer with
            | Some b => Ret b
            | None => Raise AssertionError
            end ;;
  backend <- dist_get_backend ;;
  buffer <- Ret (if String.eqb backend "nccl" then tensor_cuda buffer rank else buffer) ;;
  buffer <- dist_broadcast buffer 0 ;;
  lift (_from_tensor buffer).

(** A process that waits in a collective. *)
Definition waiting {A : Type} (st : status A) : Prop :=
  match st with
  | AtBroadcast _ _ _ | AtBarrier _ => True
  | _ => False
  end.

(** A program that issues no collective: it returns or raises. *)
Definition local (func : Proc value) : Prop :=
  forall p, match snd (run_local p func) with
            | Done _ | Failed _ => True
            | _ => False
            end.

(** The numeric kind of the buffer, for the methods that go through
    [_call_and_communicate]. *)
Definition scalar_kind (m : method) : option dtype :=
  match m with
  | M_suggest_float _ _ _ _ _ | M_suggest_uniform _ _ _
  | M_suggest_loguniform _ _ _ | M_suggest_discrete_uniform _ _ _ _ => Some torch_float
  | M_suggest_int _ _ _ _ _ | M_number => Some torch_int
  | M_should_prune => Some torch_uint8
  | _ => None
  end.

(** The closure [func] that the wrapper's method for [m] builds. *)
Definition closure (m : method) : Proc value :=
  match m with
  | M_should_prune => should_prune_func
  | _ => func_of m
  end.

(** What the closure makes of the trial's answer [r]. *)
Definition closure_result (m : method) (r : value) : value :=
  match m with
  | M_should_prune => VBool (truthy r)
  | _ => r
  end.

(** The outcomes of a group agree: either every process returned the same
    value, or no process returned. *)
Definition agreed (outs : list (participant * outcome value)) : Prop :=
  (exists v, Forall (fun po => snd po = Returned v) outs) \/
  Forall (fun po => forall v, snd po <> Returned v) outs.

(** A process that has raised, or that waits in its last broadcast and will
    return what [h] reads from the buffer. *)
Definition last_broadcast (h : tensor -> result value) (st : status value) : Prop :=
  match st with
  | Failed _ => True
  | AtBroadcast _ _ k => forall t, k t = lift (h t)
  | _ => False
  end.

(** A process that has raised, or that waits in a broadcast which is followed
    by a last broadcast. *)
Definition before_last_broadcast (h : tensor -> result value) (st : status value) : Prop :=
  match st with
  | Failed _ => True
  | AtBroadcast _ _ k => forall q t, last_broadcast h (snd (run_local q (k t)))
  | _ => False
  end.

(** How a process leaves a collective that completed. *)
Definition resumed {A : Type} (ps : participant * status A) (pc : participant * Proc A)
  : Prop :=
  match snd ps with
  | AtBarrier k => pc = (log (fst ps) EvBarrierExit, k)
  | AtBroadcast buf _ k =>
      exists sb, pc = (log (fst ps) (EvBroadcastExit (receive buf sb)), k (receive buf sb))
  | _ => False
  end.

(** ** Vocabulary for calls in sequence *)

(** Every process goes on with [k] after its program. *)
Definition and_then {A B : Type} (k : A -> Proc B) (g : list (participant * Proc A))
  : list (participant * Proc B) :=
  map (fun pc => (fst pc, bind (snd pc) k)) g.

(** Every process has returned, [res] lists the processes with their values;
    each goes on with [k] of its value. *)
Definition continue_with {A B : Type} (k : A -> Proc B) (res : list (participant * A))
  : list (participant * Proc B) :=
  map (fun pa => (fst pa, k (snd pa))) res.

Definition returned_all {A : Type} (res : list (participant * A))
  : list (participant * outcome A) :=
  map (fun pa => (fst pa, Returned (snd pa))) res.

(** Where [bind c k] stands when [c] stands at [ps]. *)
Definition then_status {A B : Type} (k : A -> Proc B) (ps : participant * status A)
  : participant * status B :=
  match snd ps with
  | Done a => run_local (fst ps) (k a)
  | Failed e => (fst ps, Failed e)
  | AtBroadcast buf src k' => (fst ps, AtBroadcast buf src (fun t => bind (k' t) k))
  | AtBarrier k' => (fst ps, AtBarrier (bind k' k))
  end.

(** ** Vocabulary for what a call may do *)

(** Where the buffers of a process live when they enter a broadcast. *)
Definition device_of (rank : Z) (backend : string) : device :=
  if String.eqb backend "nccl" then cuda rank else cpu.

(** The buffers passed to [dist.broadcast], with the source, in order. *)
Fixpoint broadcasts (es : list event) : list (tensor * Z) :=
  match es with
  | [] => []
  | EvBroadcastEnter buf src :: es' => (buf, src) :: broadcasts es'
  | _ :: es' => broadcasts es'
  end.

(** The number of calls of [dist.barrier]. *)
Fixpoint barriers (es : list event) : nat :=
  match es with
  | [] => O
  | EvBarrierEnter :: es' => S (barriers es')
  | _ :: es' => barriers es'
  end.

(** The number of collectives that the wrapper's method for [m] may enter. *)
Definition collectives (m : method) : nat :=
  if side_effecting m then 1%nat
  else match scalar_kind m with
       | Some _ => 1%nat
       | None => 2%nat
       end.

(** The buffer of a broadcast of the method for [m], when [left] collectives
    may still be entered: one element of the method's kind for a scalar
    method; for an object method one [torch.int] element first, then
    [torch.uint8] elements. *)
Definition kind_ok (m : method) (left : nat) (buf : tensor) : Prop :=
  match scalar_kind m with
  | Some dt => t_dtype buf = dt /\ List.length (t_data buf) = 1%nat
  | None =>
      match left with
      | 2%nat => t_dtype buf = torch_int /\ List.length (t_data buf) = 1%nat
      | _ => t_dtype buf = torch_uint8
      end
  end.

(** The buffers [bs] of successive broadcasts, the first entered when [left]
    collectives were allowed. *)
Fixpoint kinds_from (m : method) (left : nat) (bs : list (tensor * Z)) : Prop :=
  match bs with
  | [] => True
  | (buf, _) :: bs' => kind_ok m left buf /\ kinds_from m (Nat.pred left) bs'
  end.

(** What a process of the given rank and backend may do during the wrapper's
    method for [m].  The state counts the calls of the trial and the
    collectives that are still allowed. *)
Definition allowed (m : method) (rank : Z) (backend : string)
  (s : nat * nat) (e : event) (s' : nat * nat) : Prop :=
  match e with
  | EvEmpty _ _ | EvBarrierExit => s' = s
  | EvAssertDelegate => rank = 0 /\ s' = s
  | EvDelegate m' =>
      rank = 0 /\ m' = m /\ fst s = S (fst s') /\ snd s' = snd s
  | EvBroadcastEnter buf src =>
      src = 0 /\ side_effecting m = false /\
      t_device buf = device_of rank backend /\ kind_ok m (snd s) buf /\
      snd s = S (snd s') /\ fst s' = fst s
  | EvBroadcastExit buf => t_device buf = device_of rank backend /\ s' = s
  | EvBarrierEnter =>
      side_effecting m = true /\ snd s = S (snd s') /\ fst s' = fst s
  end.

(** The events [es] lead from [s] to [s'] by steps of [mon]. *)
Fixpoint steps {S : Type} (mon : S -> event -> S -> Prop) (s : S) (es : list event)
  (s' : S) : Prop :=
  match es with
  | [] => s' = s
  | e :: es' => exists s1, mon s e s1 /\ steps mon s1 es' s'
  end.

(** Every event on every path of the program [c], run from [s] on a process
    with the given rank, backend and fresh memory, is a step of [mon],
    whatever the trial answers and the broadcasts deliver. *)
Fixpoint accepted {S A : Type} (mon : S -> event -> S -> Prop)
  (rank : Z) (backend : string) (un : dtype -> nat -> cell) (s : S) (c : Proc A)
  : Prop :=
  match c with
  | Ret _ | Raise _ => True
  | GetRank k => accepted mon rank backend un s (k rank)
  | GetBackend k => accepted mon rank backend un s (k backend)
  | Empty n dt k =>
      n < 0 \/
      exists s1, mon s (EvEmpty n dt) s1 /\
        accepted mon rank backend un s1
          (k {| t_dtype := dt; t_data := map (un dt) (seq 0 (Z.to_nat n));
                t_device := cpu |})
  | AssertDelegate k =>
      exists s1, mon s EvAssertDelegate s1 /\ accepted mon rank backend un s1 k
  | CallDelegate m k =>
      exists s1, mon s (EvDelegate m) s1 /\
        forall v, accepted mon rank backend un s1 (k v)
  | Broadcast buf src k =>
      exists s1, mon s (EvBroadcastEnter buf src) s1 /\
        forall sb, exists s2, mon s1 (EvBroadcastExit (receive buf sb)) s2 /\
          accepted mon rank backend un s2 (k (receive buf sb))
  | Barrier k =>
      exists s1, mon s EvBarrierEnter s1 /\
        exists s2, mon s1 EvBarrierExit s2 /\ accepted mon rank backend un s2 k
  end.

(** The trial reference after the calls [ms] of the trial's methods. *)
Definition replay (d : option Trial) (ms : list method) : option Trial :=
  fold_left
    (fun d m => match d with
                | Some t => Some (fst (invoke t m))
                | None => None
                end) ms d.

(** No process of the run was cut off. *)
Definition finished {A : Type} (outs : list (participant * outcome A)) : Prop :=
  Forall (fun po => snd po <> Unfinished) outs.

End Model.

Arguments Raise {PN A} e.
Arguments Failed {PN A} e.
Arguments Raised {A} e.
Arguments Blocked {A}.
Arguments Unfinished {A}.

(** ** A small instance of the interfaces

    Used to run the protocol on concrete groups. *)
Module Ref.

(** Doubles are integers here and singles are the multiples of 8: storing a
    double into a [torch.float] tensor drops the three low bits. *)
#[local] Instance pynum : PyNum := {|
  pyfloat := Z;
  f32 := Z;
  of_f32 := fun y => 8 * y;
  float_truth := fun x => negb (x =? 0);
  float_trunc := fun x => Ok x;
  int_of_str := fun _ => Err ValueError
|}.

(** Integers out of range raise; an integer stored into a float tensor is
    rounded like a double. *)
#[local] Instance torch : Torch := {|
  coerce := fun dt v =>
    match dt, v with
    | torch_float, VFloat x => Ok (CFloat (x / 8))
    | torch_float, VInt z => Ok (CFloat (z / 8))
    | torch_float, VBool b => Ok (CFloat 0)
    | _, VInt _ => Err RuntimeError
    | _, VFloat x => Err RuntimeError
    | _, _ => Err TypeError
    end
|}.

(** The pickles (protocol 2) of [None], [True], [False], the integers
    [0 .. 255] and the empty dict. *)
Definition ref_dumps (v : value) : result (list byte) :=
  match v with
  | VNone => Ok [x80; x02; x4e; x2e]
  | VBool true => Ok [x80; x02; x88; x2e]
  | VBool false => Ok [x80; x02; x89; x2e]
  | VInt z =>
      if (0 <=? z) && (z <? 256) then
        match Byte.of_N (Z.to_N z) with
        | Some b => Ok [x80; x02; x4b; b; x2e]
        | None => Err PicklingError
        end
      else Err PicklingError
  | VDict [] => Ok [x80; x02; x7d; x71; x00; x2e]
  | _ => Err PicklingError
  end.

Definition ref_loads (b : list byte) : result value :=
  match b with
  | [x80; x02; x4e; x2e] => Ok VNone
  | [x80; x02; x88; x2e] => Ok (VBool true)
  | [x80; x02; x89; x2e] => Ok (VBool false)
  | [x80; x02; x4b; n; x2e] => Ok (VInt (Z.of_N (Byte.to_N n)))
  | [x80; x02; x7d; x71; x00; x2e] => Ok (VDict [])
  | _ => Err UnpicklingError
  end.

#[local] Instance pickle : Pickle := {| dumps := ref_dumps; loads := ref_loads |}.

(** A pickle that writes 2^31 bytes for every value. *)
Definition huge : list byte := repeat x00 (Z.to_nat (2 ^ 31)).

Definition huge_pickle : Pickle :=
  {| dumps := fun _ => Ok huge; loads := fun _ => Ok VNone |}.

(** A pickle that forgets: every value is written as [None]. *)
Definition forgetful_pickle : Pickle :=
  {| dumps := fun _ => Ok [x80; x02; x4e; x2e]; loads := ref_loads |}.

(** A pickle whose output cannot be read. *)
Definition write_only_pickle : Pickle :=
  {| dumps := ref_dumps; loads := fun _ => Err UnpicklingError |}.

(** A trial that remembers what it was told. *)
Record ref_trial : Type := {
  rt_number : Z;
  rt_params : list (string * value);
  rt_user_attrs : list (string * value);
  rt_system_attrs : list (string * value);
  rt_reports : list (value * value)
}.

Definition suggest (t : ref_trial) (name : string) (v : value) : ref_trial * result value :=
  ({| rt_number := rt_number t; rt_params := rt_params t ++ [(name, v)];
      rt_user_attrs := rt_user_attrs t; rt_system_attrs := rt_system_attrs t;
      rt_reports := rt_reports t |}, Ok v).

Definition ref_invoke (t : ref_trial) (m : method) : ref_trial * result value :=
  match m with
  | M_suggest_float name low _ _ _ | M_suggest_uniform name low _
  | M_suggest_loguniform name low _ | M_suggest_discrete_uniform name low _ _
  | M_suggest_int name low _ _ _ => suggest t name low
  | M_suggest_categorical name choices =>
      match choices with
      | c :: _ => suggest t name c
      | [] => (t, Err ValueError)
      end
  | M_report v step =>
      ({| rt_number := rt_number t; rt_params := rt_params t;
          rt_user_attrs := rt_user_attrs t; rt_system_attrs := rt_system_attrs t;
          rt_reports := rt_reports t ++ [(v, step)] |}, Ok VNone)
  | M_should_prune =>
      (t, Ok (VBool (match rt_reports t with [] => false | _ => true end)))
  | M_set_user_attr key v =>
      ({| rt_number := rt_number t; rt_params := rt_params t;
          rt_user_attrs := rt_user_attrs t ++ [(key, v)];
          rt_system_attrs := rt_system_attrs t;
          rt_reports := rt_reports t |}, Ok VNone)
  | M_set_system_attr key v =>
      ({| rt_number := rt_number t; rt_params := rt_params t;
          rt_user_attrs := rt_user_attrs t;
          rt_system_attrs := rt_system_attrs t ++ [(key, v)];
          rt_reports := rt_reports t |}, Ok VNone)
  | M_number => (t, Ok (VInt (rt_number t)))
  | M_params => (t, Ok (VDict (rt_params t)))
  | M_distributions => (t, Ok (VDict []))
  | M_user_attrs => (t, Ok (VDict (rt_user_attrs t)))
  | M_system_attrs => (t, Ok (VDict (rt_system_attrs t)))
  | M_datetime_start => (t, Ok VNone)
  end.

#[local] Instance trial_model : TrialModel := {| Trial := ref_trial; invoke := ref_invoke |}.

Definition trial0 : ref_trial :=
  {| rt_number := 7; rt_params := []; rt_user_attrs := []; rt_system_attrs := [];
     rt_reports := [] |}.

(** [suggest_float("x", 21.0, 50.0)] *)
Definition suggest_x : method :=
  M_suggest_float "x" (@VFloat pynum 21) (@VFloat pynum 50) VNone false.

(** [suggest_int("y", 2**31, 2**31 + 10)]: the trial answers 2^31. *)
Definition suggest_big : method :=
  M_suggest_int "y" (@VInt pynum (2 ^ 31)) (@VInt pynum (2 ^ 31 + 10))
    (@VInt pynum 1) false.

(** [suggest_categorical("z", [300, 0])]: the trial answers 300, which the
    small pickle does not write. *)
Definition suggest_300 : method :=
  M_suggest_categorical "z" [@VInt pynum 300; @VInt pynum 0].

(** [suggest_categorical("z", [])]: the trial raises [ValueError]. *)
Definition suggest_nothing : method := @M_suggest_categorical pynum "z" [].

(** [report(1, 0)] *)
Definition report_1 : method := M_report (@VInt pynum 1) (@VInt pynum 0).

(** Process [rank] of a group on the host backend; fresh buffers hold 85. *)
Definition proc (rank : Z) (d : option ref_trial) : participant :=
  {| p_rank := rank; p_backend := "gloo"; p_delegate := d;
     p_uninit := fun dt _ => match dt with torch_float => CFloat 85 | _ => CInt 85 end; p_log := [] |}.

(** Rank 0 holds the trial, the others hold [None]. *)
Definition group2 : list participant := [proc 0 (Some trial0); proc 1 None].
Definition group4 : list participant :=
  [proc 0 (Some trial0); proc 1 None; proc 2 None; proc 3 None].
(** Rank 0 was given no trial. *)
Definition group2_no_trial : list participant := [proc 0 None; proc 1 None].

End Ref.

(** * Properties *)

Unset Implicit Arguments.

Section Properties.

Context {PN : PyNum} {TO : Torch} {PK : Pickle} {TM : TrialModel}.

(** ** Lists and results *)

Lemma omapM_map {A B C : Type} (f : B -> option C) (h : A -> B) (g : A -> C)
  (l : list A) :
  (forall a, In a l -> f (h a) = Some (g a)) ->
  omapM f (map h l) = Some (map g l).
Proof.
  induction l as [|a l IH]; intros Hf; simpl.
  - reflexivity.
  - rewrite (Hf a (or_introl eq_refl)), IH; auto.
    intros b Hb. apply Hf. now right.
Qed.

Lemma omapM_Forall2 {A B : Type} (f : A -> option B) (l : list A) (l' : list B) :
  omapM f l = Some l' -> Forall2 (fun a b => f a = Some b) l l'.
Proof.
  revert l'. induction l as [|a l IH]; intros l' H; simpl in H.
  - inversion H. constructor.
  - destruct (f a) as [b|] eqn:Ea; [|discriminate].
    destruct (omapM f l) as [bs|]; [|discriminate].
    inversion H; subst. constructor; auto.
Qed.

(** ** One process *)

Lemma run_local_bind {A B : Type} (c : Proc A) (f : A -> Proc B) (p : participant) :
  run_local p (bind c f) =
  match snd (run_local p c) with
  | Done a => run_local (fst (run_local p c)) (f a)
  | Failed e => (fst (run_local p c), Failed e)
  | AtBroadcast buf src k =>
      (fst (run_local p c), AtBroadcast buf src (fun t => bind (k t) f))
  | AtBarrier k => (fst (run_local p c), AtBarrier (bind k f))
  end.
Proof.
  revert p. induction c; intros p; simpl; auto.
  - destruct (n <? 0); simpl; auto.
  - destruct (p_delegate p); simpl; auto.
  - destruct (p_delegate p) as [t|]; simpl; auto.
    destruct (snd (invoke t m)); simpl; auto.
Qed.

(** A process keeps its rank, its backend and its fresh memory. *)
Lemma run_local_env {A : Type} (c : Proc A) (p : participant) :
  p_rank (fst (run_local p c)) = p_rank p /\
  p_backend (fst (run_local p c)) = p_backend p /\
  p_uninit (fst (run_local p c)) = p_uninit p.
Proof.
  revert p.
  induction c as [a|e|k IH|k IH|n dt k IH|k IH|m k IH|buf src k IH|k IH];
    intros p; simpl; auto.
  - destruct (n <? 0); simpl; auto.
    destruct (IH (uninit p n dt) (log p (EvEmpty n dt))) as (? & ? & ?).
    simpl in *. auto.
  - destruct (p_delegate p); simpl; auto.
    destruct (IH (log p EvAssertDelegate)) as (? & ? & ?). simpl in *. auto.
  - destruct (p_delegate p) as [t|]; simpl; auto.
    destruct (snd (invoke t m)) as [v|e]; simpl; auto.
    destruct (IH v (set_delegate (log p (EvDelegate m)) (fst (invoke t m))))
      as (? & ? & ?).
    simpl in *. auto.
Qed.

Lemma logs_app (p : participant) (es es' : list event) :
  logs p (es ++ es') = logs (logs p es) es'.
Proof. unfold logs. apply fold_left_app. Qed.

Lemma p_log_logs (p : participant) (es : list event) :
  p_log (logs p es) = p_log p ++ es.
Proof.
  revert p. induction es as [|e es IH]; intros p; simpl.
  - now rewrite app_nil_r.
  - unfold logs in *. simpl. rewrite IH. simpl. now rewrite <- app_assoc.
Qed.

(** ** Tensors *)

Lemma receive_self (t : tensor) : receive t t = t.
Proof. now destruct t. Qed.

Lemma item_receive (buf sb : tensor) : item (receive buf sb) = item sb.
Proof. reflexivity. Qed.

Lemma item_to_device (p : participant) (t : tensor) : item (to_device p t) = item t.
Proof. unfold to_device. now destruct (String.eqb _ _). Qed.

Lemma t_data_to_device (p : participant) (t : tensor) : t_data (to_device p t) = t_data t.
Proof. unfold to_device. now destruct (String.eqb _ _). Qed.

Lemma t_dtype_to_device (p : participant) (t : tensor) : t_dtype (to_device p t) = t_dtype t.
Proof. unfold to_device. now destruct (String.eqb _ _). Qed.

Lemma from_tensor_receive (buf sb : tensor) : _from_tensor (receive buf sb) = _from_tensor sb.
Proof. reflexivity. Qed.

Lemma from_tensor_to_device (p : participant) (t : tensor) :
  _from_tensor (to_device p t) = _from_tensor t.
Proof. unfold to_device. now destruct (String.eqb _ _). Qed.

Lemma dtype_eqb_refl (dt : dtype) : dtype_eqb dt dt = true.
Proof. now destruct dt. Qed.

Lemma compatible_to_device (p q : participant) (a b : tensor) :
  compatible (to_device p a) (to_device q b) = compatible a b.
Proof.
  unfold compatible.
  now rewrite !t_data_to_device, !t_dtype_to_device.
Qed.

(** ** The pickle travels through the tensor unchanged *)

Lemma byte_of_value_cell (b : byte) : byte_of_value (cell_value (byte_cell b)) = Ok b.
Proof.
  unfold byte_cell, byte_of_value; simpl.
  pose proof (Byte.to_N_bounded b) as Hb.
  replace ((0 <=? Z.of_N (Byte.to_N b)) && (Z.of_N (Byte.to_N b) <? 256)) with true.
  - rewrite N2Z.id, Byte.of_to_N. reflexivity.
  - symmetry. apply andb_true_iff. split; [apply Z.leb_le|apply Z.ltb_lt]; lia.
Qed.

Lemma bytearray_tolist_bytes (b : list byte) :
  bytearray (tolist (tensor_of_bytes b)) = Ok b.
Proof.
  unfold bytearray, tolist, tensor_of_bytes. cbn [t_data].
  induction b as [|x b IH]; cbn [map rmapM].
  - reflexivity.
  - rewrite byte_of_value_cell. cbn [rbind]. rewrite IH. reflexivity.
Qed.

Lemma from_tensor_of_bytes (b : list byte) : _from_tensor (tensor_of_bytes b) = loads b.
Proof. unfold _from_tensor. now rewrite bytearray_tolist_bytes. Qed.

(** ** The group *)

Lemma well_formed_cons (l : participant) (fs : list participant) :
  well_formed (l :: fs) ->
  p_rank l = 0 /\ Forall (fun p => p_rank p <> 0) fs.
Proof.
  intros [_ H]. simpl in H. injection H as H0 Hfs. split; [exact H0|].
  apply Forall_forall. intros p Hin.
  assert (Hr : In (p_rank p) (map p_rank fs)) by now apply in_map.
  rewrite Hfs in Hr. apply in_map_iff in Hr. destruct Hr as (n & Hn & Hseq).
  apply in_seq in Hseq. lia.
Qed.

Lemma step_all_lift {A : Type} (r : result A) (g : list (participant * Proc A)) :
  Forall (fun pc => snd pc = lift r) g ->
  step_all g =
  map (fun pc => (fst pc, match r with Ok a => Done a | Err e => Failed e end)) g.
Proof.
  intros H. unfold step_all. apply map_ext_in. intros [p c] Hin.
  rewrite Forall_forall in H. specialize (H _ Hin). simpl in *. subst c.
  now destruct r.
Qed.

(** Processes that have only a result left return or raise it. *)
Lemma run_group_lift {A : Type} (r : result A) (fuel : nat)
  (g : list (participant * Proc A)) :
  Forall (fun pc => snd pc = lift r) g ->
  run_group fuel g = map (fun pc => (fst pc, outcome_of r)) g.
Proof.
  intros H.
  assert (Hc : collective (step_all g) = None).
  { rewrite (step_all_lift r g H). destruct g as [|[p c] g]; simpl; [reflexivity|].
    now destruct r. }
  assert (Hf : forall w, map (finalize w) (step_all g)
                         = map (fun pc => (fst pc, outcome_of r)) g).
  { intros w. rewrite (step_all_lift r g H), map_map. apply map_ext.
    intros [p c]. unfold finalize. simpl. now destruct r. }
  destruct fuel; simpl; [apply Hf|]. rewrite Hc. apply Hf.
Qed.

Lemma compatible_refl (t : tensor) : compatible t t = true.
Proof. unfold compatible. now rewrite dtype_eqb_refl, Nat.eqb_refl. Qed.

(** A broadcast from rank 0 in a group whose first process has rank 0 and
    whose other processes wait with matching buffers. *)
Lemma collective_broadcast {A : Type} (l : participant) (bl : tensor)
  (kl : tensor -> Proc A) (F : participant -> participant)
  (b : participant -> tensor) (k : participant -> tensor -> Proc A)
  (fs : list participant) :
  p_rank l = 0 ->
  (forall p, In p fs -> compatible (b p) bl = true) ->
  collective ((l, AtBroadcast bl 0 kl)
              :: map (fun p => (F p, AtBroadcast (b p) 0 (k p))) fs)
  = Some ((log l (EvBroadcastExit bl), kl bl)
          :: map (fun p => (log (F p) (EvBroadcastExit (receive (b p) bl)),
                            k p (receive (b p) bl))) fs).
Proof.
  intros Hl Hc. unfold collective.
  replace (forallb _ _) with true.
  2:{ symmetry. simpl. apply forallb_forall. intros x Hx.
      apply in_map_iff in Hx. destruct Hx as (p & <- & _). reflexivity. }
  unfold source_buffer. simpl find. rewrite Hl. simpl.
  rewrite compatible_refl, receive_self.
  rewrite (omapM_map _ _
             (fun p => (log (F p) (EvBroadcastExit (receive (b p) bl)),
                        k p (receive (b p) bl)))).
  - reflexivity.
  - intros p Hp. simpl. now rewrite (Hc p Hp).
Qed.

Lemma collective_barrier {A : Type} (l : participant) (kl : Proc A)
  (F : participant -> participant) (k : participant -> Proc A)
  (fs : list participant) :
  collective ((l, AtBarrier kl) :: map (fun p => (F p, AtBarrier (k p))) fs)
  = Some ((log l EvBarrierExit, kl)
          :: map (fun p => (log (F p) EvBarrierExit, k p)) fs).
Proof.
  unfold collective. simpl.
  rewrite (omapM_map _ _ (fun p => (log (F p) EvBarrierExit, k p))); auto.
Qed.

(** ** The scalar broadcaster, process by process *)

Lemma setitem0_uninit (p : participant) (dt : dtype) (r : value) (c : cell) :
  store dt r = Ok c ->
  setitem0 (uninit p 1 dt) r = Ok {| t_dtype := dt; t_data := [c]; t_device := cpu |}.
Proof. intros Hs. unfold setitem0. simpl. now rewrite Hs. Qed.

Lemma scalar_follower (func : Proc value) (dt : dtype) (p : participant) :
  p_rank p <> 0 ->
  run_local p (_call_and_communicate func dt) =
  (logs p [EvEmpty 1 dt; EvBroadcastEnter (to_device p (uninit p 1 dt)) 0],
   AtBroadcast (to_device p (uninit p 1 dt)) 0 (fun buffer => lift (item buffer))).
Proof.
  intros Hr. apply Z.eqb_neq in Hr.
  unfold _call_and_communicate. cbn. rewrite Hr. reflexivity.
Qed.

Lemma scalar_leader_ok (func : Proc value) (dt : dtype) (l l1 : participant)
  (r : value) (c : cell) :
  p_rank l = 0 ->
  run_local (log l (EvEmpty 1 dt)) func = (l1, Done r) ->
  store dt r = Ok c ->
  let buf := to_device l {| t_dtype := dt; t_data := [c]; t_device := cpu |} in
  run_local l (_call_and_communicate func dt) =
  (log l1 (EvBroadcastEnter buf 0),
   AtBroadcast buf 0 (fun buffer => lift (item buffer))).
Proof.
  intros Hl Hf Hs buf.
  destruct (run_local_env func (log l (EvEmpty 1 dt))) as (_ & Hb & _).
  rewrite Hf in Hb. simpl in Hb.
  unfold _call_and_communicate. cbn -[setitem0 uninit]. rewrite Hl.
  cbn -[setitem0 uninit].
  rewrite !run_local_bind, Hf. cbn -[setitem0 uninit].
  rewrite (setitem0_uninit _ _ _ _ Hs). cbn.
  subst buf. unfold to_device. rewrite Hb, Hl. reflexivity.
Qed.

Lemma scalar_leader_raises (func : Proc value) (dt : dtype) (l l1 : participant)
  (e : exn) :
  p_rank l = 0 ->
  run_local (log l (EvEmpty 1 dt)) func = (l1, Failed e) ->
  run_local l (_call_and_communicate func dt) = (l1, Failed e).
Proof.
  intros Hl Hf.
  unfold _call_and_communicate. cbn. rewrite Hl. cbn.
  rewrite !run_local_bind, Hf. reflexivity.
Qed.

(** The scalar broadcast when the leader's [func] returns [r] and [r] can be
    stored: the outcome of the whole group. *)
Lemma scalar_group_ok (func : Proc value) (dt : dtype) (l l1 : participant)
  (fs : list participant) (r : value) (c : cell) (fuel : nat) :
  well_formed (l :: fs) ->
  run_local (log l (EvEmpty 1 dt)) func = (l1, Done r) ->
  store dt r = Ok c ->
  let buf := to_device l {| t_dtype := dt; t_data := [c]; t_device := cpu |} in
  run_group (S fuel) (call_on_all (_call_and_communicate func dt) (l :: fs)) =
  (logs l1 [EvBroadcastEnter buf 0; EvBroadcastExit buf], Returned (cell_value c))
  :: map (fun p =>
            (logs p [EvEmpty 1 dt;
                     EvBroadcastEnter (to_device p (uninit p 1 dt)) 0;
                     EvBroadcastExit (receive (to_device p (uninit p 1 dt)) buf)],
             Returned (cell_value c))) fs.
Proof.
  intros Hw Hf Hs buf.
  destruct (well_formed_cons _ _ Hw) as [Hl Hfs]. rewrite Forall_forall in Hfs.
  cbn [run_group].
  assert (Hstep : step_all (call_on_all (_call_and_communicate func dt) (l :: fs)) =
            (log l1 (EvBroadcastEnter buf 0),
             AtBroadcast buf 0 (fun buffer => lift (item buffer)))
            :: map (fun p =>
                 (logs p [EvEmpty 1 dt; EvBroadcastEnter (to_device p (uninit p 1 dt)) 0],
                  AtBroadcast (to_device p (uninit p 1 dt)) 0
                    (fun buffer => lift (item buffer)))) fs).
  { unfold step_all, call_on_all. cbn [map fst snd].
    rewrite (scalar_leader_ok _ _ _ _ _ _ Hl Hf Hs). f_equal.
    rewrite map_map. apply map_ext_in. intros p Hp. cbn [fst snd].
    apply scalar_follower. auto. }
  rewrite Hstep.
  rewrite collective_broadcast.
  - rewrite (run_group_lift (Ok (cell_value c))).
    + cbn [map fst snd outcome_of]. f_equal. rewrite map_map. reflexivity.
    + constructor.
      * cbn [snd]. subst buf. now rewrite item_to_device.
      * apply Forall_forall. intros x Hx. apply in_map_iff in Hx.
        destruct Hx as (p & <- & _). cbn [snd]. rewrite item_receive.
        subst buf. now rewrite item_to_device.
  - destruct (run_local_env func (log l (EvEmpty 1 dt))) as (Hr & _ & _).
    rewrite Hf in Hr. simpl in Hr. simpl. congruence.
  - intros p _. subst buf. rewrite compatible_to_device.
    unfold compatible. simpl. now rewrite dtype_eqb_refl.
Qed.

(** When the process of rank 0 raises before its first collective, the
    others wait for ever. *)
Lemma group_leader_raises {A : Type} (prog : Proc A) (l l1 : participant) (e : exn)
  (fs : list participant) (F : participant -> participant) (fuel : nat) :
  run_local l prog = (l1, Failed e) ->
  (forall p, In p fs -> fst (run_local p prog) = F p /\ waiting (snd (run_local p prog))) ->
  run_group (S fuel) (call_on_all prog (l :: fs)) =
  (l1, Raised e) :: map (fun p => (F p, Blocked)) fs.
Proof.
  intros Hl Hfs. cbn [run_group]. unfold step_all, call_on_all.
  cbn [map fst snd]. rewrite Hl. cbn [collective map finalize fst snd].
  f_equal. rewrite !map_map. apply map_ext_in. intros p Hp. cbn [fst snd].
  destruct (Hfs p Hp) as [HF Hw]. unfold finalize. rewrite HF.
  destruct (snd (run_local p prog)); simpl in Hw; tauto.
Qed.

Lemma scalar_group_raises (func : Proc value) (dt : dtype) (l l1 : participant)
  (fs : list participant) (e : exn) (fuel : nat) :
  well_formed (l :: fs) ->
  run_local (log l (EvEmpty 1 dt)) func = (l1, Failed e) ->
  run_group (S fuel) (call_on_all (_call_and_communicate func dt) (l :: fs)) =
  (l1, Raised e)
  :: map (fun p =>
            (logs p [EvEmpty 1 dt; EvBroadcastEnter (to_device p (uninit p 1 dt)) 0],
             Blocked)) fs.
Proof.
  intros Hw Hf.
  destruct (well_formed_cons _ _ Hw) as [Hl Hfs]. rewrite Forall_forall in Hfs.
  apply group_leader_raises.
  - now apply scalar_leader_raises.
  - intros p Hp. rewrite scalar_follower by auto. simpl. auto.
Qed.

(** ** The object broadcaster, process by process *)

Lemma store_in_range (dt : dtype) (z : Z) :
  in_range dt z = true -> store dt (VInt z) = Ok (CInt z).
Proof. intros H. destruct dt; simpl in *; try discriminate; now rewrite H. Qed.

Local Notation "x <- c1 ;; c2" := (bind c1 (fun x => c2))
  (at level 61, c1 at next level, right associativity).
Local Notation "' pat <- c1 ;; c2" := (bind c1 (fun x => match x with pat => c2 end))
  (at level 61, pat pattern, c1 at next level, right associativity).

(** [_call_and_communicate_obj] is its first phase followed by
    [receive_payload]. *)
Lemma obj_two_phases (func : Proc value) :
  _call_and_communicate_obj func =
  (size_buffer <- torch_empty 1 torch_int ;;
   rank <- dist_get_rank ;;
   '(buffer, size_buffer) <-
      (if rank =? 0 then
         result <- func ;;
         buffer <- lift (_to_tensor result) ;;
         size_buffer <- lift (setitem0 size_buffer (VInt (shape0 buffer))) ;;
         Ret (Some buffer, size_buffer)
       else Ret (None, size_buffer)) ;;
   backend <- dist_get_backend ;;
   size_buffer <- Ret (if String.eqb backend "nccl"
                       then tensor_cuda size_buffer rank else size_buffer) ;;
   size_buffer <- dist_broadcast size_buffer 0 ;;
   receive_payload rank buffer size_buffer).
Proof. reflexivity. Qed.

Lemma obj_follower_size (func : Proc value) (p : participant) :
  p_rank p <> 0 ->
  run_local p (_call_and_communicate_obj func) =
  (logs p [EvEmpty 1 torch_int;
           EvBroadcastEnter (to_device p (uninit p 1 torch_int)) 0],
   AtBroadcast (to_device p (uninit p 1 torch_int)) 0
     (receive_payload (p_rank p) None)).
Proof.
  intros Hr. apply Z.eqb_neq in Hr.
  rewrite obj_two_phases. cbn -[receive_payload]. rewrite Hr. reflexivity.
Qed.

Lemma obj_leader_size (func : Proc value) (l l1 : participant) (r : value)
  (payload : list byte) (c : cell) :
  p_rank l = 0 ->
  run_local (log l (EvEmpty 1 torch_int)) func = (l1, Done r) ->
  dumps r = Ok payload ->
  store torch_int (VInt (Z.of_nat (List.length payload))) = Ok c ->
  let sbuf := to_device l {| t_dtype := torch_int; t_data := [c]; t_device := cpu |} in
  run_local l (_call_and_communicate_obj func) =
  (log l1 (EvBroadcastEnter sbuf 0),
   AtBroadcast sbuf 0 (receive_payload 0 (Some (tensor_of_bytes payload)))).
Proof.
  intros Hl Hf Hd Hs sbuf.
  destruct (run_local_env func (log l (EvEmpty 1 torch_int))) as (_ & Hb & _).
  rewrite Hf in Hb. simpl in Hb.
  rewrite obj_two_phases. cbn -[setitem0 uninit _to_tensor receive_payload]. rewrite Hl.
  cbn -[setitem0 uninit _to_tensor receive_payload].
  rewrite !run_local_bind, Hf. cbn -[setitem0 uninit _to_tensor receive_payload].
  unfold _to_tensor. rewrite Hd. cbn -[setitem0 uninit receive_payload].
  replace (shape0 (tensor_of_bytes payload)) with (Z.of_nat (List.length payload)).
  2:{ unfold shape0, tensor_of_bytes. cbn [t_data]. now rewrite length_map. }
  rewrite (setitem0_uninit _ _ _ _ Hs). cbn -[receive_payload].
  subst sbuf. unfold to_device. rewrite Hb, Hl. reflexivity.
Qed.

Lemma payload_follower (q : participant) (sz : tensor) (n : Z) :
  p_rank q <> 0 ->
  item sz = Ok (VInt n) ->
  0 <= n ->
  run_local q (receive_payload (p_rank q) None sz) =
  (logs q [EvEmpty n torch_uint8;
           EvBroadcastEnter (to_device q (uninit q n torch_uint8)) 0],
   AtBroadcast (to_device q (uninit q n torch_uint8)) 0
     (fun buffer => lift (_from_tensor buffer))).
Proof.
  intros Hr Hi Hn. apply Z.eqb_neq in Hr. apply Z.ltb_ge in Hn.
  unfold receive_payload. rewrite Hi, Hr. cbn -[uninit]. rewrite Hn.
  reflexivity.
Qed.

Lemma payload_leader (q : participant) (pb sz : tensor) (n : Z) :
  p_rank q = 0 ->
  item sz = Ok (VInt n) ->
  run_local q (receive_payload 0 (Some pb) sz) =
  (log q (EvBroadcastEnter (to_device q pb) 0),
   AtBroadcast (to_device q pb) 0 (fun buffer => lift (_from_tensor buffer))).
Proof.
  intros Hr Hi. unfold receive_payload. rewrite Hi. cbn.
  unfold to_device. rewrite Hr. reflexivity.
Qed.

Lemma uninit_length (p : participant) (n : nat) (dt : dtype) :
  List.length (t_data (uninit p (Z.of_nat n) dt)) = n.
Proof. unfold uninit. cbn [t_data]. now rewrite length_map, length_seq, Nat2Z.id. Qed.

(** The object broadcast when the leader's [func] returns [r], pickle writes
    [r] as [payload] and the length of [payload] fits the size buffer: the
    outcome of the whole group. *)
Lemma obj_group_ok (func : Proc value) (l l1 : participant) (fs : list participant)
  (r : value) (payload : list byte) (fuel : nat) :
  well_formed (l :: fs) ->
  run_local (log l (EvEmpty 1 torch_int)) func = (l1, Done r) ->
  dumps r = Ok payload ->
  Z.of_nat (List.length payload) < 2 ^ 31 ->
  let n := Z.of_nat (List.length payload) in
  let sbuf := to_device l {| t_dtype := torch_int; t_data := [CInt n]; t_device := cpu |} in
  let pbuf := to_device l (tensor_of_bytes payload) in
  run_group (S (S fuel)) (call_on_all (_call_and_communicate_obj func) (l :: fs)) =
  (logs l1 [EvBroadcastEnter sbuf 0; EvBroadcastExit sbuf;
            EvBroadcastEnter pbuf 0; EvBroadcastExit pbuf],
   outcome_of (loads payload))
  :: map (fun p =>
       (logs p [EvEmpty 1 torch_int;
                EvBroadcastEnter (to_device p (uninit p 1 torch_int)) 0;
                EvBroadcastExit (receive (to_device p (uninit p 1 torch_int)) sbuf);
                EvEmpty n torch_uint8;
                EvBroadcastEnter (to_device p (uninit p n torch_uint8)) 0;
                EvBroadcastExit (receive (to_device p (uninit p n torch_uint8)) pbuf)],
        outcome_of (loads payload))) fs.
Proof.
  intros Hw Hf Hd Hlen n sbuf pbuf.
  destruct (well_formed_cons _ _ Hw) as [Hl Hfs]. rewrite Forall_forall in Hfs.
  destruct (run_local_env func (log l (EvEmpty 1 torch_int))) as (Hr1 & Hb1 & _).
  rewrite Hf in Hr1, Hb1. simpl in Hr1, Hb1.
  assert (Hs : store torch_int (VInt n) = Ok (CInt n)).
  { apply store_in_range. simpl. apply andb_true_iff.
    split; [apply Z.leb_le|apply Z.ltb_lt]; subst n; lia. }
  assert (Hitem : item sbuf = Ok (VInt n)).
  { subst sbuf. now rewrite item_to_device. }
  (* first phase *)
  cbn [run_group].
  assert (Hstep : step_all (call_on_all (_call_and_communicate_obj func) (l :: fs)) =
            (log l1 (EvBroadcastEnter sbuf 0),
             AtBroadcast sbuf 0 (receive_payload 0 (Some (tensor_of_bytes payload))))
            :: map (fun p =>
                 (logs p [EvEmpty 1 torch_int;
                          EvBroadcastEnter (to_device p (uninit p 1 torch_int)) 0],
                  AtBroadcast (to_device p (uninit p 1 torch_int)) 0
                    (receive_payload (p_rank p) None))) fs).
  { unfold step_all, call_on_all. cbn [map fst snd].
    rewrite (obj_leader_size _ _ _ _ _ _ Hl Hf Hd Hs). f_equal.
    rewrite map_map. apply map_ext_in. intros p Hp. cbn [fst snd].
    apply obj_follower_size. auto. }
  rewrite Hstep. clear Hstep.
  rewrite collective_broadcast.
  2:{ simpl. congruence. }
  2:{ intros p _. subst sbuf. rewrite compatible_to_device.
      unfold compatible. reflexivity. }
  (* second phase *)
  cbn [run_group].
  match goal with |- context [step_all ?g] =>
    assert (Hstep : step_all g =
      (logs l1 [EvBroadcastEnter sbuf 0; EvBroadcastExit sbuf; EvBroadcastEnter pbuf 0],
       AtBroadcast pbuf 0 (fun buffer => lift (_from_tensor buffer)))
      :: map (fun p =>
           (logs p [EvEmpty 1 torch_int;
                    EvBroadcastEnter (to_device p (uninit p 1 torch_int)) 0;
                    EvBroadcastExit (receive (to_device p (uninit p 1 torch_int)) sbuf);
                    EvEmpty n torch_uint8;
                    EvBroadcastEnter (to_device p (uninit p n torch_uint8)) 0],
            AtBroadcast (to_device p (uninit p n torch_uint8)) 0
              (fun buffer => lift (_from_tensor buffer)))) fs)
  end.
  { unfold step_all. cbn [map fst snd].
    rewrite (payload_leader _ _ _ n) by (simpl; congruence || exact Hitem).
    f_equal.
    - subst pbuf. unfold to_device. cbn. rewrite Hb1, Hr1, Hl. reflexivity.
    - rewrite map_map. apply map_ext_in. intros p Hp. cbn [fst snd].
      change (p_rank p) with
        (p_rank (log (logs p [EvEmpty 1 torch_int;
                   EvBroadcastEnter (to_device p (uninit p 1 torch_int)) 0])
                   (EvBroadcastExit (receive (to_device p (uninit p 1 torch_int)) sbuf)))) at 1.
      rewrite (payload_follower _ _ n).
      + reflexivity.
      + simpl. auto.
      + rewrite item_receive. exact Hitem.
      + subst n. lia. }
  rewrite Hstep. clear Hstep.
  rewrite collective_broadcast.
  2:{ simpl. congruence. }
  2:{ intros p _. subst pbuf. rewrite compatible_to_device.
      unfold compatible. cbn [t_dtype uninit tensor_of_bytes t_data dtype_eqb andb].
      rewrite !length_map, length_seq. subst n. rewrite Nat2Z.id. apply Nat.eqb_refl. }
  rewrite (run_group_lift (loads payload)).
  - cbn [map fst snd]. f_equal. rewrite map_map. reflexivity.
  - constructor.
    + cbn [snd]. subst pbuf. now rewrite from_tensor_to_device, from_tensor_of_bytes.
    + apply Forall_forall. intros x Hx. apply in_map_iff in Hx.
      destruct Hx as (p & <- & _). cbn [snd]. rewrite from_tensor_receive.
      subst pbuf. now rewrite from_tensor_to_device, from_tensor_of_bytes.
Qed.

(** ** The closures *)

Lemma func_of_ok (p : participant) (t : Trial) (m : method) (v : value) :
  p_delegate p = Some t ->
  snd (invoke t m) = Ok v ->
  run_local p (func_of m) =
  (set_delegate (logs p [EvAssertDelegate; EvDelegate m]) (fst (invoke t m)), Done v).
Proof.
  intros Hd Hi. unfold func_of. cbn. rewrite Hd. cbn. rewrite ?Hd, Hi. reflexivity.
Qed.

Lemma func_of_raises (p : participant) (t : Trial) (m : method) (e : exn) :
  p_delegate p = Some t ->
  snd (invoke t m) = Err e ->
  run_local p (func_of m) =
  (set_delegate (logs p [EvAssertDelegate; EvDelegate m]) (fst (invoke t m)), Failed e).
Proof.
  intros Hd Hi. unfold func_of. cbn. rewrite Hd. cbn. rewrite ?Hd, Hi. reflexivity.
Qed.

Lemma func_of_absent (p : participant) (m : method) :
  p_delegate p = None ->
  run_local p (func_of m) = (log p EvAssertDelegate, Failed AssertionError).
Proof. intros Hd. unfold func_of. cbn. now rewrite Hd. Qed.

Lemma should_prune_func_ok (p : participant) (t : Trial) (v : value) :
  p_delegate p = Some t ->
  snd (invoke t M_should_prune) = Ok v ->
  run_local p should_prune_func =
  (set_delegate (logs p [EvAssertDelegate; EvDelegate M_should_prune])
     (fst (invoke t M_should_prune)),
   Done (VBool (truthy v))).
Proof.
  intros Hd Hi. unfold should_prune_func. cbn. rewrite Hd. cbn.
  rewrite ?Hd, Hi. reflexivity.
Qed.

Lemma should_prune_func_absent (p : participant) :
  p_delegate p = None ->
  run_local p should_prune_func = (log p EvAssertDelegate, Failed AssertionError).
Proof. intros Hd. unfold should_prune_func. cbn. now rewrite Hd. Qed.

Lemma func_of_local (m : method) : local (func_of m).
Proof.
  intros p. unfold func_of. cbn.
  destruct (p_delegate p) as [t|]; cbn; [|exact I].
  destruct (snd (invoke t m)); exact I.
Qed.

Lemma should_prune_func_local : local should_prune_func.
Proof.
  intros p. unfold should_prune_func. cbn.
  destruct (p_delegate p) as [t|]; cbn; [|exact I].
  destruct (snd (invoke t M_should_prune)); exact I.
Qed.

(** ** The methods without a result *)

Lemma leader_only_follower (m : method) (p : participant) :
  p_rank p <> 0 ->
  run_local p (leader_only m) = (log p EvBarrierEnter, AtBarrier (Ret VNone)).
Proof.
  intros Hr. apply Z.eqb_neq in Hr.
  unfold leader_only. cbn. rewrite Hr. reflexivity.
Qed.

Lemma leader_only_leader_ok (m : method) (l : participant) (t : Trial) (v : value) :
  p_rank l = 0 ->
  p_delegate l = Some t ->
  snd (invoke t m) = Ok v ->
  run_local l (leader_only m) =
  (log (set_delegate (logs l [EvAssertDelegate; EvDelegate m]) (fst (invoke t m)))
     EvBarrierEnter,
   AtBarrier (Ret VNone)).
Proof.
  intros Hr Hd Hi. unfold leader_only. cbn. rewrite Hr. cbn.
  rewrite Hd. cbn. rewrite ?Hd, Hi. reflexivity.
Qed.

Lemma leader_only_leader_absent (m : method) (l : participant) :
  p_rank l = 0 ->
  p_delegate l = None ->
  run_local l (leader_only m) = (log l EvAssertDelegate, Failed AssertionError).
Proof.
  intros Hr Hd. unfold leader_only. cbn. rewrite Hr. cbn. now rewrite Hd.
Qed.

Lemma leader_only_group_ok (m : method) (l : participant) (fs : list participant)
  (t : Trial) (v : value) (fuel : nat) :
  well_formed (l :: fs) ->
  p_delegate l = Some t ->
  snd (invoke t m) = Ok v ->
  run_group (S fuel) (call_on_all (leader_only m) (l :: fs)) =
  (logs (set_delegate (logs l [EvAssertDelegate; EvDelegate m]) (fst (invoke t m)))
     [EvBarrierEnter; EvBarrierExit],
   Returned VNone)
  :: map (fun p => (logs p [EvBarrierEnter; EvBarrierExit], Returned VNone)) fs.
Proof.
  intros Hw Hd Hi.
  destruct (well_formed_cons _ _ Hw) as [Hl Hfs]. rewrite Forall_forall in Hfs.
  cbn [run_group].
  assert (Hstep : step_all (call_on_all (leader_only m) (l :: fs)) =
            (log (set_delegate (logs l [EvAssertDelegate; EvDelegate m])
                    (fst (invoke t m))) EvBarrierEnter,
             AtBarrier (Ret VNone))
            :: map (fun p => (log p EvBarrierEnter, AtBarrier (Ret VNone))) fs).
  { unfold step_all, call_on_all. cbn [map fst snd].
    rewrite (leader_only_leader_ok _ _ _ _ Hl Hd Hi). f_equal.
    rewrite map_map. apply map_ext_in. intros p Hp. cbn [fst snd].
    apply leader_only_follower. auto. }
  rewrite Hstep, collective_barrier.
  rewrite (run_group_lift (Ok VNone)).
  - cbn [map fst snd outcome_of]. f_equal. rewrite map_map. reflexivity.
  - constructor; [reflexivity|]. apply Forall_forall. intros x Hx.
    apply in_map_iff in Hx. now destruct Hx as (p & <- & _).
Qed.

Lemma leader_only_group_absent (m : method) (l : participant) (fs : list participant)
  (fuel : nat) :
  well_formed (l :: fs) ->
  p_delegate l = None ->
  run_group (S fuel) (call_on_all (leader_only m) (l :: fs)) =
  (log l EvAssertDelegate, Raised AssertionError)
  :: map (fun p => (log p EvBarrierEnter, Blocked)) fs.
Proof.
  intros Hw Hd.
  destruct (well_formed_cons _ _ Hw) as [Hl Hfs]. rewrite Forall_forall in Hfs.
  apply group_leader_raises.
  - now apply leader_only_leader_absent.
  - intros p Hp. rewrite leader_only_follower by auto. simpl. auto.
Qed.

(** ** The object broadcaster when the leader raises before the first broadcast *)

Lemma obj_leader_raises (func : Proc value) (l l1 : participant) (e : exn) :
  p_rank l = 0 ->
  run_local (log l (EvEmpty 1 torch_int)) func = (l1, Failed e) ->
  run_local l (_call_and_communicate_obj func) = (l1, Failed e).
Proof.
  intros Hl Hf.
  rewrite obj_two_phases. cbn -[receive_payload]. rewrite Hl.
  cbn -[receive_payload]. rewrite !run_local_bind, Hf. reflexivity.
Qed.

Lemma obj_leader_size_raises (func : Proc value) (l l1 : participant) (r : value)
  (payload : list byte) (e : exn) :
  p_rank l = 0 ->
  run_local (log l (EvEmpty 1 torch_int)) func = (l1, Done r) ->
  dumps r = Ok payload ->
  store torch_int (VInt (Z.of_nat (List.length payload))) = Err e ->
  run_local l (_call_and_communicate_obj func) = (l1, Failed e).
Proof.
  intros Hl Hf Hd Hs.
  rewrite obj_two_phases. cbn -[setitem0 uninit _to_tensor receive_payload]. rewrite Hl.
  cbn -[setitem0 uninit _to_tensor receive_payload].
  rewrite !run_local_bind, Hf. cbn -[setitem0 uninit _to_tensor receive_payload].
  unfold _to_tensor. rewrite Hd. cbn -[setitem0 uninit receive_payload].
  replace (shape0 (tensor_of_bytes payload)) with (Z.of_nat (List.length payload)).
  2:{ unfold shape0, tensor_of_bytes. cbn [t_data]. now rewrite length_map. }
  unfold setitem0. cbn -[receive_payload store]. rewrite Hs. reflexivity.
Qed.

Lemma obj_group_raises (func : Proc value) (l l1 : participant)
  (fs : list participant) (e : exn) (fuel : nat) :
  well_formed (l :: fs) ->
  run_local l (_call_and_communicate_obj func) = (l1, Failed e) ->
  run_group (S fuel) (call_on_all (_call_and_communicate_obj func) (l :: fs)) =
  (l1, Raised e)
  :: map (fun p =>
            (logs p [EvEmpty 1 torch_int;
                     EvBroadcastEnter (to_device p (uninit p 1 torch_int)) 0],
             Blocked)) fs.
Proof.
  intros Hw Hf.
  destruct (well_formed_cons _ _ Hw) as [Hl Hfs]. rewrite Forall_forall in Hfs.
  apply group_leader_raises.
  - exact Hf.
  - intros p Hp. rewrite obj_follower_size by auto. simpl. auto.
Qed.

(** ** Agreement *)

(** A collective that completes resumes every process, in order; a completed
    broadcast hands the same elements to all. *)
Lemma collective_broadcast_inv {A : Type} (sts : list (participant * status A))
  (g' : list (participant * Proc A)) (p0 : participant) (b0 : tensor) (src : Z)
  (k0 : tensor -> Proc A) (rest : list (participant * status A)) :
  sts = (p0, AtBroadcast b0 src k0) :: rest ->
  collective sts = Some g' ->
  exists sb, Forall2 (fun ps pc => resume_broadcast sb ps = Some pc) sts g'.
Proof.
  intros -> H. unfold collective in H.
  destruct (forallb _ _); [|discriminate].
  destruct (source_buffer _ _) as [sb|]; [|discriminate].
  exists sb. now apply omapM_Forall2.
Qed.

Lemma collective_resumed {A : Type} (sts : list (participant * status A))
  (g' : list (participant * Proc A)) :
  collective sts = Some g' -> Forall2 resumed sts g'.
Proof.
  intros H. destruct sts as [|[p0 st0] rest]; [discriminate|].
  destruct st0 as [a|e|b0 src k0|k0]; try discriminate.
  - destruct (collective_broadcast_inv _ _ _ _ _ _ _ eq_refl H) as (sb & HF).
    eapply Forall2_impl; [|exact HF].
    intros [p st] pc Hr. unfold resume_broadcast in Hr. unfold resumed. cbn [fst snd].
    destruct st; try discriminate.
    destruct (compatible _ _); [|discriminate].
    exists sb. now inversion Hr.
  - unfold collective in H. apply omapM_Forall2 in H.
    eapply Forall2_impl; [|exact H].
    intros [p st] pc Hr. unfold resume_barrier in Hr. unfold resumed. cbn [fst snd].
    destruct st; try discriminate. now inversion Hr.
Qed.

Lemma not_returned_finalize (w : outcome value) (sts : list (participant * status value)) :
  (forall v, w <> Returned v) ->
  Forall (fun ps => match snd ps with Done _ => False | _ => True end) sts ->
  agreed (map (finalize w) sts).
Proof.
  intros Hw H. right. apply Forall_forall. intros po Hin.
  apply in_map_iff in Hin. destruct Hin as ([p st] & <- & Hin).
  rewrite Forall_forall in H. specialize (H _ Hin). unfold finalize. cbn [fst snd] in *.
  destruct st; try tauto; intros v; try discriminate; apply Hw.
Qed.

Lemma last_broadcast_not_done (h : tensor -> result value)
  (sts : list (participant * status value)) :
  Forall (fun ps => last_broadcast h (snd ps)) sts ->
  Forall (fun ps => match snd ps with Done _ => False | _ => True end) sts.
Proof.
  apply Forall_impl. intros [p st]. cbn [snd]. destruct st; simpl; tauto.
Qed.

Lemma agreed_lift (r : result value) (g : list (participant * Proc value)) :
  agreed (map (fun pc => (fst pc, outcome_of r)) g).
Proof.
  destruct r as [v|e]; [left; exists v|right];
    apply Forall_forall; intros po Hin; apply in_map_iff in Hin;
    destruct Hin as (pc & <- & _); simpl; congruence.
Qed.

(** The last broadcast: all processes read the same elements. *)
Lemma last_round_agree (h : tensor -> result value)
  (sts : list (participant * status value)) (fuel : nat) :
  (forall buf sb, h (receive buf sb) = h sb) ->
  Forall (fun ps => last_broadcast h (snd ps)) sts ->
  agreed (match collective sts with
          | Some g' => run_group fuel g'
          | None => map (finalize Blocked) sts
          end).
Proof.
  intros Hh Hsts. destruct (collective sts) as [g'|] eqn:Hc.
  - destruct sts as [|[p0 st0] rest]; [discriminate|].
    destruct st0 as [a|e|b0 src k0|k0]; try discriminate.
    + destruct (collective_broadcast_inv _ _ _ _ _ _ _ eq_refl Hc) as (sb & HF).
      rewrite (run_group_lift (h sb)); [apply agreed_lift|].
      clear Hc. revert Hsts HF. generalize ((p0, AtBroadcast b0 src k0) :: rest).
      intros l Hl HF. induction HF as [|[p st] pc l l' Hr HF IH]; constructor.
      * inversion Hl as [|? ? Hst _]; subst. cbn [snd] in Hst.
        unfold resume_broadcast in Hr. destruct st; try discriminate.
        destruct (compatible _ _); [|discriminate].
        inversion Hr; subst. cbn [snd]. simpl in Hst. now rewrite Hst, Hh.
      * apply IH. eapply Forall_inv_tail; eassumption.
    + inversion Hsts as [|? ? Hst _]; subst. simpl in Hst. tauto.
  - apply not_returned_finalize; [intros v; discriminate|].
    eapply last_broadcast_not_done; eauto.
Qed.

Lemma run_group_last (h : tensor -> result value)
  (g : list (participant * Proc value)) (fuel : nat) :
  (forall buf sb, h (receive buf sb) = h sb) ->
  Forall (fun ps => last_broadcast h (snd ps)) (step_all g) ->
  agreed (run_group fuel g).
Proof.
  intros Hh H. destruct fuel; cbn [run_group].
  - apply not_returned_finalize; [intros v; discriminate|].
    eapply last_broadcast_not_done; eauto.
  - now apply last_round_agree with (h := h).
Qed.

(** A broadcast followed by a last broadcast. *)
Lemma run_group_before_last (h : tensor -> result value)
  (g : list (participant * Proc value)) (fuel : nat) :
  (forall buf sb, h (receive buf sb) = h sb) ->
  Forall (fun ps => before_last_broadcast h (snd ps)) (step_all g) ->
  agreed (run_group fuel g).
Proof.
  intros Hh H.
  assert (Hnd : Forall (fun ps => match snd ps with Done _ => False | _ => True end)
                  (step_all g)).
  { revert H. apply Forall_impl. intros [p st]. cbn [snd]. destruct st; simpl; tauto. }
  destruct fuel; cbn [run_group].
  - apply not_returned_finalize; [intros v; discriminate|assumption].
  - destruct (collective (step_all g)) as [g'|] eqn:Hc.
    + apply run_group_last with (h := h); [assumption|].
      apply collective_resumed in Hc.
      revert H Hc. generalize (step_all g). intros sts H Hc.
      unfold step_all.
      induction Hc as [|[p st] pc l l' Hr HF IH]; cbn [map]; constructor.
      * inversion H as [|? ? Hst _]; subst. cbn [snd] in Hst.
        unfold resumed in Hr. cbn [fst snd] in Hr.
        destruct st; simpl in Hst; try tauto.
        destruct Hr as (sb & ->). cbn [fst snd]. apply Hst.
      * apply IH. eapply Forall_inv_tail; eassumption.
    + apply not_returned_finalize; [intros v; discriminate|assumption].
Qed.

Lemma scalar_last_broadcast (func : Proc value) (dt : dtype) (p : participant) :
  local func ->
  last_broadcast item (snd (run_local p (_call_and_communicate func dt))).
Proof.
  intros Hloc. unfold _call_and_communicate. cbn -[setitem0 uninit].
  destruct (p_rank p =? 0).
  - rewrite !run_local_bind. specialize (Hloc (log p (EvEmpty 1 dt))).
    destruct (snd (run_local (log p (EvEmpty 1 dt)) func)) as [r|e|? ? ?|?];
      try tauto; cbn -[setitem0 uninit]; try exact I.
    destruct (setitem0 (uninit p 1 dt) r); cbn; [|exact I].
    intros t. reflexivity.
  - cbn. intros t. reflexivity.
Qed.

Lemma receive_payload_last (rank : Z) (buffer : option tensor) (sz : tensor)
  (q : participant) :
  last_broadcast _from_tensor (snd (run_local q (receive_payload rank buffer sz))).
Proof.
  unfold receive_payload.
  destruct (rbind (item sz) py_int) as [n|e]; cbn -[uninit]; [|exact I].
  destruct (rank =? 0); cbn -[uninit].
  - destruct buffer; cbn; [|exact I]. intros t'. reflexivity.
  - destruct (n <? 0); cbn; [exact I|]. intros t'. reflexivity.
Qed.

Lemma obj_before_last (func : Proc value) (p : participant) :
  local func ->
  before_last_broadcast _from_tensor (snd (run_local p (_call_and_communicate_obj func))).
Proof.
  intros Hloc. rewrite obj_two_phases.
  cbn -[setitem0 uninit _to_tensor receive_payload].
  destruct (p_rank p =? 0).
  - rewrite !run_local_bind. specialize (Hloc (log p (EvEmpty 1 torch_int))).
    destruct (snd (run_local (log p (EvEmpty 1 torch_int)) func)) as [r|e|? ? ?|?];
      try tauto; cbn -[setitem0 uninit _to_tensor receive_payload]; try exact I.
    destruct (_to_tensor r) as [buffer|e];
      cbn -[setitem0 uninit receive_payload]; [|exact I].
    destruct (setitem0 (uninit p 1 torch_int) (VInt (shape0 buffer)));
      cbn -[receive_payload]; [|exact I].
    intros q t. apply receive_payload_last.
  - cbn -[receive_payload]. intros q t. apply receive_payload_last.
Qed.

Lemma scalar_agree (func : Proc value) (dt : dtype) (w : list participant) (fuel : nat) :
  local func ->
  agreed (run_group fuel (call_on_all (_call_and_communicate func dt) w)).
Proof.
  intros Hloc. apply run_group_last with (h := item); [apply item_receive|].
  unfold step_all, call_on_all. rewrite map_map. apply Forall_forall.
  intros x Hin. apply in_map_iff in Hin. destruct Hin as (p & <- & _).
  cbn [fst snd]. now apply scalar_last_broadcast.
Qed.

Lemma obj_agree (func : Proc value) (w : list participant) (fuel : nat) :
  local func ->
  agreed (run_group fuel (call_on_all (_call_and_communicate_obj func) w)).
Proof.
  intros Hloc. apply run_group_before_last with (h := _from_tensor);
    [apply from_tensor_receive|].
  unfold step_all, call_on_all. rewrite map_map. apply Forall_forall.
  intros x Hin. apply in_map_iff in Hin. destruct Hin as (p & <- & _).
  cbn [fst snd]. now apply obj_before_last.
Qed.

(** ** Processes that never reach the trial *)

Lemma Forall2_map_left {A B C : Type} (f : A -> B) (R : B -> C -> Prop)
  (l : list A) (l' : list C) :
  Forall2 R (map f l) l' -> Forall2 (fun a c => R (f a) c) l l'.
Proof.
  revert l'. induction l as [|a l IH]; intros l' H; inversion H; subst;
    constructor; auto.
Qed.

Lemma Forall2_map_self {A B : Type} (f : A -> B) (R : A -> B -> Prop) (l : list A) :
  (forall a, R a (f a)) -> Forall2 R l (map f l).
Proof. intros H. induction l; simpl; constructor; auto. Qed.

Lemma Forall2_chain {A B C : Type} (R1 : A -> B -> Prop) (R2 : B -> C -> Prop)
  (l1 : list A) (l2 : list B) (l3 : list C) :
  Forall2 R1 l1 l2 -> Forall2 R2 l2 l3 ->
  Forall2 (fun a c => exists b, R1 a b /\ R2 b c) l1 l3.
Proof.
  intros H. revert l3. induction H; intros l3 H3; inversion H3; subst;
    constructor; eauto.
Qed.

Lemma untouched_refl (p : participant) : untouched p p.
Proof.
  unfold untouched. repeat split; auto. exists []. now rewrite app_nil_r.
Qed.

Lemma untouched_trans (p q r : participant) :
  untouched p q -> untouched q r -> untouched p r.
Proof.
  intros (H1 & H2 & H3 & H4 & es & H5 & H6) (K1 & K2 & K3 & K4 & es' & K5 & K6).
  unfold untouched. repeat split; try congruence.
  exists (es ++ es'). split.
  - rewrite K5, H5. now rewrite app_assoc.
  - rewrite existsb_app, H6, K6. reflexivity.
Qed.

Lemma untouched_log (p : participant) (e : event) :
  touches_delegate e = false -> untouched p (log p e).
Proof.
  intros He. unfold untouched. simpl. repeat split; auto.
  exists [e]. simpl. now rewrite He.
Qed.

(** A quiet program leaves the trial alone up to the next collective, and
    is quiet again after it. *)
Lemma quiet_run_local {A : Type} (c : Proc A) (p : participant) :
  quiet (p_rank p) (p_backend p) (p_uninit p) c ->
  untouched p (fst (run_local p c)) /\
  match snd (run_local p c) with
  | AtBroadcast _ _ k => forall t, quiet (p_rank p) (p_backend p) (p_uninit p) (k t)
  | AtBarrier k => quiet (p_rank p) (p_backend p) (p_uninit p) k
  | _ => True
  end.
Proof.
  revert p.
  induction c as [a|e|k IH|k IH|n dt k IH|k IH|m k IH|buf src k IH|k IH];
    intros p Hq; simpl in *.
  - split; [apply untouched_refl|exact I].
  - split; [apply untouched_refl|exact I].
  - now apply IH.
  - now apply IH.
  - destruct (n <? 0); simpl.
    + split; [apply untouched_refl|exact I].
    + destruct (IH _ (log p (EvEmpty n dt)) Hq) as [Hu Hk]. split; [|exact Hk].
      eapply untouched_trans; [|exact Hu]. now apply untouched_log.
  - contradiction.
  - contradiction.
  - split; [now apply untouched_log|exact Hq].
  - split; [now apply untouched_log|exact Hq].
Qed.

Lemma quiet_resumed {A : Type} (pc pc' : participant * Proc A) :
  quiet (p_rank (fst pc)) (p_backend (fst pc)) (p_uninit (fst pc)) (snd pc) ->
  resumed (run_local (fst pc) (snd pc)) pc' ->
  untouched (fst pc) (fst pc') /\
  quiet (p_rank (fst pc')) (p_backend (fst pc')) (p_uninit (fst pc')) (snd pc').
Proof.
  intros Hq Hr. destruct pc as [p c]. cbn [fst snd] in *.
  destruct (quiet_run_local c p Hq) as [Hu Hk].
  destruct (run_local_env c p) as (E1 & E2 & E3).
  unfold resumed in Hr.
  destruct (snd (run_local p c)) as [a|e|buf src k|k]; try contradiction.
  - destruct Hr as (sb & ->). cbn [fst snd]. split.
    + eapply untouched_trans; [exact Hu|]. now apply untouched_log.
    + simpl. rewrite E1, E2, E3. apply Hk.
  - subst pc'. cbn [fst snd]. split.
    + eapply untouched_trans; [exact Hu|]. now apply untouched_log.
    + simpl. rewrite E1, E2, E3. apply Hk.
Qed.

(** In a run of the group, a process whose program is quiet ends with its
    trial reference as it was and no event that reads it. *)
Lemma quiet_group {A : Type} (fuel : nat) (g : list (participant * Proc A)) :
  Forall2 (fun pc po =>
             quiet (p_rank (fst pc)) (p_backend (fst pc)) (p_uninit (fst pc)) (snd pc) ->
             untouched (fst pc) (fst po))
    g (run_group fuel g).
Proof.
  assert (Hfin : forall w (g : list (participant * Proc A)),
    Forall2 (fun pc po =>
             quiet (p_rank (fst pc)) (p_backend (fst pc)) (p_uninit (fst pc)) (snd pc) ->
             untouched (fst pc) (fst po))
      g (map (finalize w) (step_all g))).
  { intros w g0. unfold step_all. rewrite map_map. apply Forall2_map_self.
    intros [p c] Hq. cbn [fst snd] in *. now apply quiet_run_local. }
  revert g. induction fuel as [|fuel IH]; intros g; cbn [run_group].
  - apply Hfin.
  - destruct (collective (step_all g)) as [g'|] eqn:Hc; [|apply Hfin].
    apply collective_resumed in Hc. unfold step_all in Hc.
    apply Forall2_map_left in Hc.
    eapply Forall2_impl; [|exact (Forall2_chain _ _ _ _ _ Hc (IH g'))].
    intros pc po (pc' & Hr & Hq') Hq. cbn beta in Hr.
    destruct (quiet_resumed pc pc' Hq Hr) as [Hu Hq2].
    eapply untouched_trans; [exact Hu|]. now apply Hq'.
Qed.

(** ** The wrapper's methods by kind *)

Lemma facade_scalar (m : method) (dt : dtype) :
  scalar_kind m = Some dt -> facade m = _call_and_communicate (closure m) dt.
Proof. destruct m; simpl; intros H; inversion H; reflexivity. Qed.

Lemma facade_obj (m : method) :
  scalar_kind m = None -> side_effecting m = false ->
  facade m = _call_and_communicate_obj (func_of m).
Proof. destruct m; simpl; intros H1 H2; try discriminate; reflexivity. Qed.

Lemma facade_effect (m : method) :
  side_effecting m = true -> facade m = leader_only m.
Proof. destruct m; simpl; intros H; try discriminate; reflexivity. Qed.

Lemma closure_ok (p : participant) (t : Trial) (m : method) (v : value) :
  p_delegate p = Some t ->
  snd (invoke t m) = Ok v ->
  run_local p (closure m) =
  (set_delegate (logs p [EvAssertDelegate; EvDelegate m]) (fst (invoke t m)),
   Done (closure_result m v)).
Proof.
  intros Hd Hi.
  destruct m; try exact (func_of_ok _ _ _ _ Hd Hi).
  exact (should_prune_func_ok _ _ _ Hd Hi).
Qed.

Lemma closure_absent (p : participant) (m : method) :
  p_delegate p = None ->
  run_local p (closure m) = (log p EvAssertDelegate, Failed AssertionError).
Proof.
  intros Hd.
  destruct m; try exact (func_of_absent _ _ Hd).
  exact (should_prune_func_absent _ Hd).
Qed.

Lemma closure_local (m : method) : local (closure m).
Proof.
  destruct m; try apply func_of_local. apply should_prune_func_local.
Qed.

Lemma facade_agreed (m : method) (w : list participant) (fuel : nat) :
  side_effecting m = false ->
  agreed (run_group fuel (call_on_all (facade m) w)).
Proof.
  intros Hs. destruct (scalar_kind m) as [dt|] eqn:Hk.
  - rewrite (facade_scalar _ _ Hk). apply scalar_agree, closure_local.
  - rewrite (facade_obj _ Hk Hs). apply obj_agree, func_of_local.
Qed.

Lemma lift_quiet (rank : Z) (backend : string) (un : dtype -> nat -> cell)
  (r : result value) : quiet rank backend un (lift r).
Proof. now destruct r. Qed.

Lemma facade_quiet (m : method) (rank : Z) (backend : string)
  (un : dtype -> nat -> cell) :
  rank <> 0 -> quiet rank backend un (facade m).
Proof.
  intros Hr. apply Z.eqb_neq in Hr.
  assert (Hs : forall func dt, quiet rank backend un (_call_and_communicate func dt)).
  { intros func dt. unfold _call_and_communicate. cbn. rewrite Hr. cbn.
    intros t. apply lift_quiet. }
  assert (Ho : forall func, quiet rank backend un (_call_and_communicate_obj func)).
  { intros func. unfold _call_and_communicate_obj. cbn. rewrite Hr. cbn.
    intros t. destruct (rbind (item t) py_int); cbn; [|exact I].
    intros t'. apply lift_quiet. }
  assert (He : forall m', quiet rank backend un (leader_only m')).
  { intros m'. unfold leader_only. cbn. rewrite Hr. cbn. exact I. }
  destruct m; first [exact (Hs _ _) | exact (Ho _) | exact (He _)].
Qed.

Lemma Forall2_map_self_in {A B : Type} (f : A -> B) (R : A -> B -> Prop) (l : list A) :
  (forall a, In a l -> R a (f a)) -> Forall2 R l (map f l).
Proof.
  induction l as [|a l IH]; intros H; simpl; constructor.
  - apply H. now left.
  - apply IH. intros b Hb. apply H. now right.
Qed.

Lemma Forall_map_const {A B : Type} (f : A -> B) (P : B -> Prop) (l : list A) :
  (forall a, P (f a)) -> Forall P (map f l).
Proof. intros H. induction l; simpl; constructor; auto. Qed.

(** * The claims *)

(** C1 (agreement).  For every method of the wrapper that produces a value,
    called by every process of a group: if one process returns a value, every
    process of the group returns that same value. *)
Theorem facade_agreement (m : method) (w : list participant) (fuel : nat)
  (p : participant) (v : value) :
  side_effecting m = false ->
  In (p, Returned v) (run_group fuel (call_on_all (facade m) w)) ->
  Forall (fun qo => snd qo = Returned v) (run_group fuel (call_on_all (facade m) w)).
Proof.
  intros Hs Hin. destruct (facade_agreed m w fuel Hs) as [(v' & Hall)|Hnone].
  - rewrite Forall_forall in Hall. pose proof (Hall _ Hin) as Hv. simpl in Hv.
    inversion Hv; subst. now apply Forall_forall.
  - rewrite Forall_forall in Hnone. exfalso. exact (Hnone _ Hin v eq_refl).
Qed.

(** C2 (size negotiation, for pickles shorter than 2^31 bytes).  When the
    pickle of the leader's result is shorter than 2^31 bytes, the object
    broadcast runs in two phases on every process: the broadcast of the length returns, then each
    process of non-zero rank allocates a [torch.uint8] buffer of exactly that
    length, and the second broadcast leaves in it the leader's bytes, one for
    one. *)
Theorem size_negotiation (func : Proc value) (l l1 : participant)
  (fs : list participant) (r : value) (payload : list byte) (fuel : nat) :
  well_formed (l :: fs) ->
  run_local (log l (EvEmpty 1 torch_int)) func = (l1, Done r) ->
  dumps r = Ok payload ->
  Z.of_nat (List.length payload) < 2 ^ 31 ->
  let n := Z.of_nat (List.length payload) in
  let sbuf := to_device l {| t_dtype := torch_int; t_data := [CInt n]; t_device := cpu |} in
  let pbuf := to_device l (tensor_of_bytes payload) in
  run_group (S (S fuel)) (call_on_all (_call_and_communicate_obj func) (l :: fs)) =
  (logs l1 [EvBroadcastEnter sbuf 0; EvBroadcastExit sbuf;
            EvBroadcastEnter pbuf 0; EvBroadcastExit pbuf],
   outcome_of (loads payload))
  :: map (fun p =>
       (logs p [EvEmpty 1 torch_int;
                EvBroadcastEnter (to_device p (uninit p 1 torch_int)) 0;
                EvBroadcastExit (receive (to_device p (uninit p 1 torch_int)) sbuf);
                EvEmpty n torch_uint8;
                EvBroadcastEnter (to_device p (uninit p n torch_uint8)) 0;
                EvBroadcastExit (receive (to_device p (uninit p n torch_uint8)) pbuf)],
        outcome_of (loads payload))) fs
  /\ forall p : participant,
       List.length (t_data (uninit p n torch_uint8)) = List.length payload /\
       bytearray (tolist (receive (to_device p (uninit p n torch_uint8)) pbuf))
       = Ok payload.
Proof.
  intros Hw Hf Hd Hlen n sbuf pbuf. split.
  - exact (obj_group_ok func l l1 fs r payload fuel Hw Hf Hd Hlen).
  - intros p. split.
    + subst n. apply uninit_length.
    + unfold tolist, receive. cbn [t_data]. subst pbuf.
      rewrite t_data_to_device. apply bytearray_tolist_bytes.
Qed.

(** C3 (leader exclusivity).  For [report], [set_user_attr] and
    [set_system_attr], when the process of rank 0 holds the trial and the
    trial's method returns: every process returns [None]; before that it has
    entered and left the barrier; the trial's method was called once on rank 0
    and not at all on the other ranks, and before the barrier. *)
Theorem leader_exclusivity (m : method) (l : participant) (fs : list participant)
  (t : Trial) (v : value) (fuel : nat) :
  side_effecting m = true ->
  well_formed (l :: fs) ->
  p_delegate l = Some t ->
  snd (invoke t m) = Ok v ->
  Forall2 (fun p po =>
             snd po = Returned VNone /\
             exists es,
               p_log (fst po) = p_log p ++ es ++ [EvBarrierEnter; EvBarrierExit] /\
               delegate_calls es = (if p_rank p =? 0 then [m] else []) /\
               existsb enters_collective es = false)
    (l :: fs) (run_group (S fuel) (call_on_all (facade m) (l :: fs))).
Proof.
  intros Hs Hw Hd Hi.
  destruct (well_formed_cons _ _ Hw) as [Hl Hfs]. rewrite Forall_forall in Hfs.
  rewrite (facade_effect _ Hs), (leader_only_group_ok m l fs t v fuel Hw Hd Hi).
  constructor.
  - cbn [fst snd]. split; [reflexivity|].
    exists [EvAssertDelegate; EvDelegate m]. rewrite Hl. repeat split.
    rewrite p_log_logs. cbn [set_delegate p_log]. rewrite p_log_logs.
    now rewrite <- app_assoc.
  - apply Forall2_map_self_in. intros p Hp. cbn [fst snd]. split; [reflexivity|].
    exists []. pose proof (Hfs p Hp) as Hr. apply Z.eqb_neq in Hr. rewrite Hr.
    repeat split. now rewrite p_log_logs.
Qed.

(** C4 (the steps of the scalar broadcast).  When the leader's [compute]
    returns [r] and [r] is stored as the element [c]: every process allocates
    one element of the given kind; only the leader runs [compute]; every
    process enters one broadcast from rank 0 and leaves it with a buffer that
    holds [c]; every process returns the scalar read from that buffer. *)
Theorem scalar_broadcast_steps (func : Proc value) (dt : dtype) (l l1 : participant)
  (fs : list participant) (r : value) (c : cell) (fuel : nat) :
  well_formed (l :: fs) ->
  run_local (log l (EvEmpty 1 dt)) func = (l1, Done r) ->
  store dt r = Ok c ->
  let buf := to_device l {| t_dtype := dt; t_data := [c]; t_device := cpu |} in
  run_group (S fuel) (call_on_all (_call_and_communicate func dt) (l :: fs)) =
  (logs l1 [EvBroadcastEnter buf 0; EvBroadcastExit buf], Returned (cell_value c))
  :: map (fun p =>
            (logs p [EvEmpty 1 dt;
                     EvBroadcastEnter (to_device p (uninit p 1 dt)) 0;
                     EvBroadcastExit (receive (to_device p (uninit p 1 dt)) buf)],
             Returned (cell_value c))) fs
  /\ forall p : participant,
       List.length (t_data (uninit p 1 dt)) = 1%nat /\
       t_dtype (uninit p 1 dt) = dt /\
       t_data (receive (to_device p (uninit p 1 dt)) buf) = [c] /\
       item (receive (to_device p (uninit p 1 dt)) buf) = Ok (cell_value c).
Proof.
  intros Hw Hf Hs buf. split.
  - exact (scalar_group_ok func dt l l1 fs r c fuel Hw Hf Hs).
  - intros p. subst buf. repeat split.
    + cbn [receive t_data]. now rewrite t_data_to_device.
    + now rewrite item_receive, item_to_device.
Qed.

(** C5 (absent trial on rank 0).  When the process of rank 0 holds no
    trial, it raises [AssertionError] before it enters any collective; every
    other process of the group then waits in its collective for ever. *)
Theorem absent_trial_raises_on_leader (m : method) (l : participant)
  (fs : list participant) (fuel : nat) :
  well_formed (l :: fs) ->
  p_delegate l = None ->
  exists (l' : participant) (F : participant -> participant),
    run_group (S fuel) (call_on_all (facade m) (l :: fs)) =
    (l', Raised AssertionError) :: map (fun p => (F p, Blocked)) fs
    /\ exists es, p_log l' = p_log l ++ es /\ existsb enters_collective es = false.
Proof.
  intros Hw Hd. destruct (well_formed_cons _ _ Hw) as [Hl _].
  destruct (side_effecting m) eqn:Hs.
  - rewrite (facade_effect _ Hs), (leader_only_group_absent m l fs fuel Hw Hd).
    eexists _, _. split; [reflexivity|]. exists [EvAssertDelegate]. split; reflexivity.
  - destruct (scalar_kind m) as [dt|] eqn:Hk.
    + rewrite (facade_scalar _ _ Hk).
      rewrite (scalar_group_raises (closure m) dt l
                 (log (log l (EvEmpty 1 dt)) EvAssertDelegate) fs AssertionError fuel Hw)
        by (now apply closure_absent).
      eexists _, _. split; [reflexivity|].
      exists [EvEmpty 1 dt; EvAssertDelegate]. split; [|reflexivity].
      simpl. now rewrite <- app_assoc.
    + rewrite (facade_obj _ Hk Hs).
      rewrite (obj_group_raises (func_of m) l
                 (log (log l (EvEmpty 1 torch_int)) EvAssertDelegate) fs
                 AssertionError fuel Hw)
        by (apply obj_leader_raises; [exact Hl|now apply func_of_absent]).
      eexists _, _. split; [reflexivity|].
      exists [EvEmpty 1 torch_int; EvAssertDelegate]. split; [|reflexivity].
      simpl. now rewrite <- app_assoc.
Qed.

(** C6 (no process of non-zero rank reaches the trial).  In every run of
    every method of the wrapper on every group, a process of non-zero rank
    ends with its trial reference as it was, and none of its events reads
    [self._delegate]. *)
Theorem followers_never_dereference (m : method) (w : list participant) (fuel : nat) :
  Forall2 (fun p po => p_rank p <> 0 -> untouched p (fst po))
    w (run_group fuel (call_on_all (facade m) w)).
Proof.
  pose proof (quiet_group fuel (call_on_all (facade m) w)) as H.
  unfold call_on_all in H at 1. apply Forall2_map_left in H.
  eapply Forall2_impl; [|exact H].
  intros p po Hq Hr. cbn [fst snd] in Hq. apply Hq. now apply facade_quiet.
Qed.

(** C7 (round trip).  A value that pickle writes and reads back comes back
    from [_from_tensor (_to_tensor v)]. *)
Theorem pickle_round_trip (v : value) :
  serializable v -> rbind (_to_tensor v) _from_tensor = Ok v.
Proof.
  intros (b & Hd & Hl). unfold _to_tensor. rewrite Hd. cbn [rbind].
  now rewrite from_tensor_of_bytes.
Qed.


(** C9 (the leader reads its own buffer).  In the object broadcast every
    process, the leader first, returns what [_from_tensor] reads from the
    bytes that [_to_tensor] wrote for the leader's result [r]; no process
    returns [r] itself. *)
Theorem leader_deserializes_own_buffer (func : Proc value) (l l1 : participant)
  (fs : list participant) (r : value) (payload : list byte) (fuel : nat) :
  well_formed (l :: fs) ->
  run_local (log l (EvEmpty 1 torch_int)) func = (l1, Done r) ->
  dumps r = Ok payload ->
  Z.of_nat (List.length payload) < 2 ^ 31 ->
  let outs := run_group (S (S fuel))
                (call_on_all (_call_and_communicate_obj func) (l :: fs)) in
  (exists l', hd_error outs = Some (l', outcome_of (rbind (_to_tensor r) _from_tensor)))
  /\ Forall (fun po => snd po = outcome_of (rbind (_to_tensor r) _from_tensor)) outs.
Proof.
  intros Hw Hf Hd Hlen outs. subst outs.
  rewrite (obj_group_ok func l l1 fs r payload fuel Hw Hf Hd Hlen).
  assert (E : rbind (_to_tensor r) _from_tensor = loads payload).
  { unfold _to_tensor. rewrite Hd. cbn [rbind]. apply from_tensor_of_bytes. }
  rewrite E. split.
  - eexists. reflexivity.
  - constructor; [reflexivity|]. apply Forall_map_const. reflexivity.
Qed.

(** C10 ([should_prune] returns an integer).  When the leader's trial answers
    [v], [should_prune] returns on every process the integer 1 if [bool(v)]
    holds and 0 otherwise; this is an [int] of the same truth value, and not a
    [bool]. *)
Theorem should_prune_returns_int (l : participant) (fs : list participant)
  (t : Trial) (v : value) (fuel : nat) :
  well_formed (l :: fs) ->
  p_delegate l = Some t ->
  snd (invoke t M_should_prune) = Ok v ->
  Forall (fun po => snd po = Returned (VInt (Z.b2z (truthy v))))
    (run_group (S fuel) (call_on_all should_prune (l :: fs)))
  /\ (Z.b2z (truthy v) = 0 \/ Z.b2z (truthy v) = 1)
  /\ truthy (VInt (Z.b2z (truthy v))) = truthy v
  /\ forall b, VInt (Z.b2z (truthy v)) <> VBool b.
Proof.
  intros Hw Hd Hi. split; [|split; [|split]].
  - unfold should_prune.
    rewrite (scalar_group_ok should_prune_func torch_uint8 l _ fs _
               (CInt (Z.b2z (truthy v))) fuel Hw
               (should_prune_func_ok (log l (EvEmpty 1 torch_uint8)) t v Hd Hi) eq_refl).
    constructor; [reflexivity|]. apply Forall_map_const. reflexivity.
  - destruct (truthy v); auto.
  - destruct (truthy v); reflexivity.
  - intros b. discriminate.
Qed.

(** * Further properties of the wrapper *)

(** ** A failure on rank 0 before the first collective *)

Lemma should_prune_func_raises (p : participant) (t : Trial) (e : exn) :
  p_delegate p = Some t ->
  snd (invoke t M_should_prune) = Err e ->
  run_local p should_prune_func =
  (set_delegate (logs p [EvAssertDelegate; EvDelegate M_should_prune])
     (fst (invoke t M_should_prune)),
   Failed e).
Proof.
  intros Hd Hi. unfold should_prune_func. cbn. rewrite Hd. cbn.
  rewrite ?Hd, Hi. reflexivity.
Qed.

Lemma closure_raises (p : participant) (t : Trial) (m : method) (e : exn) :
  p_delegate p = Some t ->
  snd (invoke t m) = Err e ->
  run_local p (closure m) =
  (set_delegate (logs p [EvAssertDelegate; EvDelegate m]) (fst (invoke t m)), Failed e).
Proof.
  intros Hd Hi.
  destruct m; try exact (func_of_raises _ _ _ _ Hd Hi).
  exact (should_prune_func_raises _ _ _ Hd Hi).
Qed.

Lemma leader_only_leader_raises (m : method) (l : participant) (t : Trial) (e : exn) :
  p_rank l = 0 ->
  p_delegate l = Some t ->
  snd (invoke t m) = Err e ->
  run_local l (leader_only m) =
  (set_delegate (logs l [EvAssertDelegate; EvDelegate m]) (fst (invoke t m)), Failed e).
Proof.
  intros Hr Hd Hi. unfold leader_only. cbn. rewrite Hr. cbn.
  rewrite Hd. cbn. rewrite ?Hd, Hi. reflexivity.
Qed.

Lemma scalar_leader_store_raises (func : Proc value) (dt : dtype) (l l1 : participant)
  (r : value) (e : exn) :
  p_rank l = 0 ->
  run_local (log l (EvEmpty 1 dt)) func = (l1, Done r) ->
  store dt r = Err e ->
  run_local l (_call_and_communicate func dt) = (l1, Failed e).
Proof.
  intros Hl Hf Hs.
  unfold _call_and_communicate. cbn -[setitem0 uninit]. rewrite Hl.
  cbn -[setitem0 uninit].
  rewrite !run_local_bind, Hf. cbn -[setitem0 uninit].
  unfold setitem0. cbn -[store]. rewrite Hs. reflexivity.
Qed.

Lemma obj_leader_dumps_raises (func : Proc value) (l l1 : participant) (r : value)
  (e : exn) :
  p_rank l = 0 ->
  run_local (log l (EvEmpty 1 torch_int)) func = (l1, Done r) ->
  dumps r = Err e ->
  run_local l (_call_and_communicate_obj func) = (l1, Failed e).
Proof.
  intros Hl Hf Hd.
  rewrite obj_two_phases. cbn -[setitem0 uninit _to_tensor receive_payload]. rewrite Hl.
  cbn -[setitem0 uninit _to_tensor receive_payload].
  rewrite !run_local_bind, Hf. cbn -[setitem0 uninit _to_tensor receive_payload].
  unfold _to_tensor. rewrite Hd. reflexivity.
Qed.

(** The outcome of any method when the leader stops at [l1] with the
    exception [e] before its first collective. *)
Lemma facade_leader_raises (m : method) (l l1 : participant) (fs : list participant)
  (e : exn) (fuel : nat) :
  well_formed (l :: fs) ->
  run_local l (facade m) = (l1, Failed e) ->
  exists F : participant -> participant,
    run_group (S fuel) (call_on_all (facade m) (l :: fs)) =
    (l1, Raised e) :: map (fun p => (F p, Blocked)) fs.
Proof.
  intros Hw Hl.
  destruct (well_formed_cons _ _ Hw) as [_ Hfs]. rewrite Forall_forall in Hfs.
  exists (fun p => fst (run_local p (facade m))).
  apply group_leader_raises; [exact Hl|].
  intros p Hp. split; [reflexivity|]. specialize (Hfs p Hp).
  destruct (side_effecting m) eqn:Hs.
  - rewrite (facade_effect _ Hs), leader_only_follower by exact Hfs. exact I.
  - destruct (scalar_kind m) as [dt|] eqn:Hk.
    + rewrite (facade_scalar _ _ Hk), scalar_follower by exact Hfs. exact I.
    + rewrite (facade_obj _ Hk Hs), obj_follower_size by exact Hfs. exact I.
Qed.

(** X1 (an exception of the trial's method).  For every method of the wrapper:
    when the trial on rank 0 raises [e], rank 0 raises [e] after this one call
    and before any collective, its trial is in the state the call left, and
    every other process waits in its collective for ever. *)
Theorem trial_exception_blocks_group (m : method) (l : participant)
  (fs : list participant) (t : Trial) (e : exn) (fuel : nat) :
  well_formed (l :: fs) ->
  p_delegate l = Some t ->
  snd (invoke t m) = Err e ->
  exists (l' : participant) (F : participant -> participant),
    run_group (S fuel) (call_on_all (facade m) (l :: fs)) =
    (l', Raised e) :: map (fun p => (F p, Blocked)) fs
    /\ p_delegate l' = Some (fst (invoke t m))
    /\ exists es, p_log l' = p_log l ++ es /\ delegate_calls es = [m] /\
                  existsb enters_collective es = false.
Proof.
  intros Hw Hd Hi. destruct (well_formed_cons _ _ Hw) as [Hl _].
  destruct (side_effecting m) eqn:Hs.
  - pose proof (leader_only_leader_raises m l t e Hl Hd Hi) as Hrun.
    rewrite <- (facade_effect _ Hs) in Hrun.
    destruct (facade_leader_raises m l _ fs e fuel Hw Hrun) as (F & HF).
    eexists _, F. split; [exact HF|]. split; [reflexivity|].
    exists [EvAssertDelegate; EvDelegate m]. split; [|split; reflexivity].
    cbn. now rewrite <- !app_assoc.
  - destruct (scalar_kind m) as [dt|] eqn:Hk.
    + pose proof (scalar_leader_raises (closure m) dt l _ e Hl
                    (closure_raises (log l (EvEmpty 1 dt)) t m e Hd Hi)) as Hrun.
      rewrite <- (facade_scalar _ _ Hk) in Hrun.
      destruct (facade_leader_raises m l _ fs e fuel Hw Hrun) as (F & HF).
      eexists _, F. split; [exact HF|]. split; [reflexivity|].
      exists [EvEmpty 1 dt; EvAssertDelegate; EvDelegate m]. split; [|split; reflexivity].
      cbn. now rewrite <- !app_assoc.
    + pose proof (obj_leader_raises (func_of m) l _ e Hl
                    (func_of_raises (log l (EvEmpty 1 torch_int)) t m e Hd Hi)) as Hrun.
      rewrite <- (facade_obj _ Hk Hs) in Hrun.
      destruct (facade_leader_raises m l _ fs e fuel Hw Hrun) as (F & HF).
      eexists _, F. split; [exact HF|]. split; [reflexivity|].
      exists [EvEmpty 1 torch_int; EvAssertDelegate; EvDelegate m].
      split; [|split; reflexivity].
      cbn. now rewrite <- !app_assoc.
Qed.

(** X2 (a result that the buffer cannot hold).  For a method that goes through the
    scalar broadcast: when the trial answers [r] and PyTorch refuses to store
    [r] in a buffer of the method's kind, rank 0 raises after the trial has
    been called (a suggestion is recorded in the trial), and every other
    process waits in the broadcast for ever. *)
Theorem unstorable_result_blocks_group (m : method) (dt : dtype) (l : participant)
  (fs : list participant) (t : Trial) (r : value) (e : exn) (fuel : nat) :
  scalar_kind m = Some dt ->
  well_formed (l :: fs) ->
  p_delegate l = Some t ->
  snd (invoke t m) = Ok r ->
  store dt (closure_result m r) = Err e ->
  exists (l' : participant) (F : participant -> participant),
    run_group (S fuel) (call_on_all (facade m) (l :: fs)) =
    (l', Raised e) :: map (fun p => (F p, Blocked)) fs
    /\ p_delegate l' = Some (fst (invoke t m))
    /\ exists es, p_log l' = p_log l ++ es /\ delegate_calls es = [m] /\
                  existsb enters_collective es = false.
Proof.
  intros Hk Hw Hd Hi Hs. destruct (well_formed_cons _ _ Hw) as [Hl _].
  pose proof (scalar_leader_store_raises (closure m) dt l _ _ e Hl
                (closure_ok (log l (EvEmpty 1 dt)) t m r Hd Hi) Hs) as Hrun.
  rewrite <- (facade_scalar _ _ Hk) in Hrun.
  destruct (facade_leader_raises m l _ fs e fuel Hw Hrun) as (F & HF).
  eexists _, F. split; [exact HF|]. split; [reflexivity|].
  exists [EvEmpty 1 dt; EvAssertDelegate; EvDelegate m]. split; [|split; reflexivity].
  cbn. now rewrite <- !app_assoc.
Qed.

(** X3 (a result that pickle cannot write).  For a method that goes through the
    object broadcast: when the trial answers [r] and [pickle.dumps] raises on
    [r], rank 0 raises after the trial has been called and before any
    collective, and every other process waits in the broadcast for ever. *)
Theorem unpicklable_result_blocks_group (m : method) (l : participant)
  (fs : list participant) (t : Trial) (r : value) (e : exn) (fuel : nat) :
  scalar_kind m = None ->
  side_effecting m = false ->
  well_formed (l :: fs) ->
  p_delegate l = Some t ->
  snd (invoke t m) = Ok r ->
  dumps r = Err e ->
  exists (l' : participant) (F : participant -> participant),
    run_group (S fuel) (call_on_all (facade m) (l :: fs)) =
    (l', Raised e) :: map (fun p => (F p, Blocked)) fs
    /\ p_delegate l' = Some (fst (invoke t m))
    /\ exists es, p_log l' = p_log l ++ es /\ delegate_calls es = [m] /\
                  existsb enters_collective es = false.
Proof.
  intros Hk Hs Hw Hd Hi Hp. destruct (well_formed_cons _ _ Hw) as [Hl _].
  pose proof (obj_leader_dumps_raises (func_of m) l _ _ e Hl
                (func_of_ok (log l (EvEmpty 1 torch_int)) t m r Hd Hi) Hp) as Hrun.
  rewrite <- (facade_obj _ Hk Hs) in Hrun.
  destruct (facade_leader_raises m l _ fs e fuel Hw Hrun) as (F & HF).
  eexists _, F. split; [exact HF|]. split; [reflexivity|].
  exists [EvEmpty 1 torch_int; EvAssertDelegate; EvDelegate m].
  split; [|split; reflexivity].
  cbn. now rewrite <- !app_assoc.
Qed.

(** X4 (a pickle that cannot be read).  In the object broadcast, when the bytes of
    the leader's result (fewer than 2^31) do not unpickle, every process of
    the group raises the same exception after the second broadcast: none
    returns and none is left waiting. *)
Theorem unpickling_error_on_every_process (m : method) (l : participant)
  (fs : list participant) (t : Trial) (r : value) (payload : list byte) (e : exn)
  (fuel : nat) :
  scalar_kind m = None ->
  side_effecting m = false ->
  well_formed (l :: fs) ->
  p_delegate l = Some t ->
  snd (invoke t m) = Ok r ->
  dumps r = Ok payload ->
  Z.of_nat (List.length payload) < 2 ^ 31 ->
  loads payload = Err e ->
  Forall (fun po => snd po = Raised e)
    (run_group (S (S fuel)) (call_on_all (facade m) (l :: fs))).
Proof.
  intros Hk Hs Hw Hd Hi Hp Hlen Hload.
  rewrite (facade_obj _ Hk Hs).
  rewrite (obj_group_ok (func_of m) l _ fs r payload fuel Hw
             (func_of_ok (log l (EvEmpty 1 torch_int)) t m r Hd Hi) Hp Hlen).
  rewrite Hload. constructor; [reflexivity|]. apply Forall_map_const. reflexivity.
Qed.

(** ** Bytes and tensors *)

Lemma byte_cell_of_value (c : cell) (b : byte) :
  byte_of_value (cell_value c) = Ok b -> byte_cell b = c.
Proof.
  destruct c as [z|x]; simpl; [|discriminate].
  destruct ((0 <=? z) && (z <? 256)) eqn:Hr; [|discriminate].
  destruct (Byte.of_N (Z.to_N z)) as [b'|] eqn:Hb; [|discriminate].
  intros H. inversion H; subst b'. unfold byte_cell.
  apply Byte.to_of_N in Hb. rewrite Hb.
  apply andb_true_iff in Hr. destruct Hr as [H0 _]. apply Z.leb_le in H0.
  now rewrite Z2N.id.
Qed.

(** X6 (reading a tensor as bytes loses nothing).  When [bytearray(tensor.tolist())]
    yields [b], the tensor [torch.tensor(b, dtype=torch.uint8)] has the
    elements of the tensor that was read. *)
Theorem bytearray_tolist_inverse (t : tensor) (b : list byte) :
  bytearray (tolist t) = Ok b -> t_data (tensor_of_bytes b) = t_data t.
Proof.
  unfold bytearray, tolist, tensor_of_bytes. cbn [t_data].
  generalize (t_data t). clear t. intros cs. revert b.
  induction cs as [|c cs IH]; intros b H; cbn [map rmapM] in H.
  - now inversion H.
  - destruct (byte_of_value (cell_value c)) as [x|] eqn:Hx; [|discriminate].
    cbn [rbind] in H.
    destruct (rmapM byte_of_value (map cell_value cs)) as [bs|] eqn:Hbs; [|discriminate].
    cbn [rbind] in H. inversion H; subst b. cbn [map].
    rewrite (byte_cell_of_value _ _ Hx), (IH bs eq_refl). reflexivity.
Qed.

Lemma bytearray_rejects_non_bytes (cs : list cell) (c : cell) :
  In c cs ->
  (forall z, c = CInt z -> z < 0 \/ 255 < z) ->
  rmapM byte_of_value (map cell_value cs) = Err TypeError \/
  rmapM byte_of_value (map cell_value cs) = Err ValueError.
Proof.
  intros Hin Hc. induction cs as [|c' cs IH]; [contradiction|].
  cbn [map rmapM].
  destruct (byte_of_value (cell_value c')) as [x|e] eqn:Hx.
  - cbn [rbind]. destruct Hin as [->|Hin].
    + exfalso. destruct c as [z|y]; simpl in Hx; [|discriminate].
      destruct ((0 <=? z) && (z <? 256)) eqn:Hr; [|discriminate].
      apply andb_true_iff in Hr. destruct Hr as [H0 H1].
      apply Z.leb_le in H0. apply Z.ltb_lt in H1.
      destruct (Hc z eq_refl); lia.
    + destruct (IH Hin) as [E|E]; rewrite E; auto.
  - cbn [rbind].
    destruct c' as [z|y]; simpl in Hx.
    + destruct ((0 <=? z) && (z <? 256)); [|inversion Hx; auto].
      destruct (Byte.of_N (Z.to_N z)); inversion Hx; auto.
    + inversion Hx; auto.
Qed.

(** X5 (the tensor carries the pickle).  When [_to_tensor] succeeds, its result is
    a [torch.uint8] tensor on the host with one element per byte of
    [pickle.dumps(obj)], and these bytes are read back from it unchanged;
    [_to_tensor] fails only when [pickle.dumps] does. *)
Theorem to_tensor_carries_the_pickle (obj : value) (t : tensor) :
  _to_tensor obj = Ok t ->
  t_dtype t = torch_uint8 /\ t_device t = cpu /\
  exists b, dumps obj = Ok b /\ shape0 t = Z.of_nat (List.length b) /\
            bytearray (tolist t) = Ok b.
Proof.
  unfold _to_tensor. destruct (dumps obj) as [b|e]; cbn [rbind]; [|discriminate].
  intros H. inversion H; subst t. repeat split. exists b. split; [reflexivity|].
  split; [|apply bytearray_tolist_bytes].
  unfold shape0, tensor_of_bytes. cbn [t_data]. now rewrite length_map.
Qed.

(** X7 ([_from_tensor] on a tensor that is not a sequence of bytes).  When some
    element is a float, or an integer outside [0 .. 255], [_from_tensor]
    raises [TypeError] or [ValueError], whatever [pickle.loads] would do. *)
Theorem from_tensor_rejects_non_bytes (t : tensor) (c : cell) :
  In c (t_data t) ->
  (forall z, c = CInt z -> z < 0 \/ 255 < z) ->
  _from_tensor t = Err TypeError \/ _from_tensor t = Err ValueError.
Proof.
  intros Hin Hc. unfold _from_tensor, bytearray, tolist.
  destruct (bytearray_rejects_non_bytes (t_data t) c Hin Hc) as [E|E];
    rewrite E; auto.
Qed.

(** ** Calls in sequence *)

Lemma run_local_then {A B : Type} (c : Proc A) (k : A -> Proc B) (p : participant) :
  run_local p (bind c k) = then_status k (run_local p c).
Proof. rewrite run_local_bind. unfold then_status. reflexivity. Qed.

Lemma step_all_and_then {A B : Type} (k : A -> Proc B) (g : list (participant * Proc A)) :
  step_all (and_then k g) = map (then_status k) (step_all g).
Proof.
  unfold step_all, and_then. rewrite !map_map. apply map_ext.
  intros [p c]. cbn [fst snd]. apply run_local_then.
Qed.

Lemma run_group_step_all {A : Type} (fuel : nat) (g1 g2 : list (participant * Proc A)) :
  step_all g1 = step_all g2 -> run_group fuel g1 = run_group fuel g2.
Proof. intros H. destruct fuel; cbn [run_group]; now rewrite H. Qed.

Lemma finalize_all_done {A : Type} (w : outcome A) (sts : list (participant * status A))
  (res : list (participant * A)) :
  (forall a, w <> Returned a) ->
  map (finalize w) sts = returned_all res ->
  sts = map (fun pa => (fst pa, Done (snd pa))) res.
Proof.
  intros Hw. revert res. induction sts as [|[p st] sts IH]; intros [|[q a] res] H;
    try discriminate; [reflexivity|].
  cbn in H. injection H as Hp Hst Hrest. subst q. cbn [map fst snd].
  rewrite (IH res Hrest). f_equal. f_equal.
  destruct st; try congruence; exfalso; eapply Hw; eauto.
Qed.

Lemma then_status_done {A B : Type} (k : A -> Proc B) (res : list (participant * A)) :
  map (then_status k) (map (fun pa => (fst pa, Done (snd pa))) res)
  = step_all (continue_with k res).
Proof.
  unfold step_all, continue_with. rewrite !map_map. apply map_ext.
  intros [p a]. reflexivity.
Qed.

Lemma omapM_then_barrier {A B : Type} (k : A -> Proc B)
  (sts : list (participant * status A)) (g' : list (participant * Proc A)) :
  omapM resume_barrier sts = Some g' ->
  omapM resume_barrier (map (then_status k) sts) = Some (and_then k g').
Proof.
  revert g'. induction sts as [|[p st] sts IH]; intros g' H; cbn in H |- *.
  - now inversion H.
  - destruct st; try discriminate.
    destruct (omapM resume_barrier sts) as [gs|]; [|discriminate].
    inversion H; subst. rewrite (IH gs eq_refl). reflexivity.
Qed.

Lemma omapM_then_broadcast {A B : Type} (k : A -> Proc B) (sb : tensor)
  (sts : list (participant * status A)) (g' : list (participant * Proc A)) :
  omapM (resume_broadcast sb) sts = Some g' ->
  omapM (resume_broadcast sb) (map (then_status k) sts) = Some (and_then k g').
Proof.
  revert g'. induction sts as [|[p st] sts IH]; intros g' H; cbn in H |- *.
  - now inversion H.
  - destruct st; try discriminate.
    destruct (compatible buf sb) eqn:Hcomp; [|discriminate].
    destruct (omapM (resume_broadcast sb) sts) as [gs|]; [|discriminate].
    inversion H; subst. rewrite (IH gs eq_refl).
    unfold then_status, resume_broadcast. cbn [fst snd]. rewrite Hcomp. reflexivity.
Qed.

Lemma forallb_then_broadcast {A B : Type} (k : A -> Proc B) (src : Z)
  (sts : list (participant * status A)) :
  forallb (fun ps => is_broadcast src (snd ps)) sts = true ->
  forallb (fun ps => is_broadcast src (snd ps)) (map (then_status k) sts) = true
  /\ source_buffer src (map (then_status k) sts) = source_buffer src sts.
Proof.
  unfold source_buffer.
  induction sts as [|[p st] sts IH]; intros H; cbn in H |- *; [auto|].
  apply andb_true_iff in H. destruct H as [Hst Hrest].
  destruct st; try discriminate. cbn in Hst |- *. rewrite Hst. cbn.
  destruct (IH Hrest) as [IH1 IH2]. split; [exact IH1|].
  destruct (p_rank p =? src); [reflexivity|exact IH2].
Qed.

(** A collective that completes for the programs completes for the programs
    followed by [k]. *)
Lemma collective_then {A B : Type} (k : A -> Proc B)
  (sts : list (participant * status A)) (g' : list (participant * Proc A)) :
  collective sts = Some g' ->
  collective (map (then_status k) sts) = Some (and_then k g').
Proof.
  intros H. destruct sts as [|[p0 st0] rest]; [discriminate|].
  destruct st0 as [a|e|b0 src k0|k0]; try discriminate.
  - unfold collective in H |- *. cbn [map then_status fst snd].
    change ((p0, AtBroadcast b0 src (fun t => bind (k0 t) k))
            :: map (then_status k) rest)
      with (map (then_status k) ((p0, AtBroadcast b0 src k0) :: rest)).
    destruct (forallb _ ((p0, AtBroadcast b0 src k0) :: rest)) eqn:Hall; [|discriminate].
    destruct (forallb_then_broadcast k src _ Hall) as [H1 H2].
    rewrite H1, H2.
    destruct (source_buffer src _) as [sb|]; [|discriminate].
    now apply omapM_then_broadcast.
  - unfold collective in H |- *. cbn [map then_status fst snd].
    change ((p0, AtBarrier (bind k0 k)) :: map (then_status k) rest)
      with (map (then_status k) ((p0, AtBarrier k0) :: rest)).
    now apply omapM_then_barrier.
Qed.

(** When every process returns from its program, the programs followed by
    [k] go on as [k] of the value returned, from the state reached. *)
Lemma run_group_and_then {A B : Type} (k : A -> Proc B) (fuel : nat)
  (g : list (participant * Proc A)) (res : list (participant * A)) :
  run_group fuel g = returned_all res ->
  exists used, (used <= fuel)%nat /\
    forall rest, run_group (used + rest) (and_then k g)
                 = run_group rest (continue_with k res).
Proof.
  assert (Hu : forall a : A, Unfinished <> Returned a) by (intros a; discriminate).
  assert (Hb : forall a : A, Blocked <> Returned a) by (intros a; discriminate).
  revert g. induction fuel as [|fuel IH]; intros g H; cbn [run_group] in H.
  - exists 0%nat. split; [lia|]. intros rest. cbn [Nat.add].
    apply run_group_step_all. rewrite step_all_and_then.
    rewrite (finalize_all_done _ _ _ Hu H).
    apply then_status_done.
  - destruct (collective (step_all g)) as [g'|] eqn:Hc.
    + destruct (IH g' H) as (used & Hle & Hrun).
      exists (S used). split; [lia|]. intros rest. cbn [Nat.add run_group].
      rewrite step_all_and_then, (collective_then k _ _ Hc). apply Hrun.
    + exists 0%nat. split; [lia|]. intros rest. cbn [Nat.add].
      apply run_group_step_all. rewrite step_all_and_then.
      rewrite (finalize_all_done _ _ _ Hb H).
      apply then_status_done.
Qed.

(** A run in which no process was cut off is the same with more fuel. *)
Lemma run_group_more_fuel {A : Type} (fuel fuel' : nat) (g : list (participant * Proc A)) :
  finished (run_group fuel g) ->
  (fuel <= fuel')%nat ->
  run_group fuel' g = run_group fuel g.
Proof.
  revert fuel' g. induction fuel as [|fuel IH]; intros fuel' g Hfin Hle;
    cbn [run_group] in *.
  - assert (Hnw : Forall (fun ps => match snd ps with
                                    | AtBroadcast _ _ _ | AtBarrier _ => False
                                    | _ => True end) (step_all g)).
    { unfold finished in Hfin. rewrite Forall_forall in Hfin |- *.
      intros [p st] Hin. cbn [snd].
      specialize (Hfin _ (in_map (finalize Unfinished) _ _ Hin)).
      unfold finalize in Hfin. cbn [fst snd] in Hfin. destruct st; auto. }
    assert (Hfz : forall w, map (finalize w) (step_all g)
                            = map (finalize Unfinished) (step_all g)).
    { intros w. apply map_ext_in. intros [p st] Hin.
      rewrite Forall_forall in Hnw. specialize (Hnw _ Hin). cbn [snd] in Hnw.
      unfold finalize. cbn [fst snd]. destruct st; tauto. }
    destruct fuel'; cbn [run_group]; [reflexivity|].
    replace (collective (step_all g)) with (@None (list (participant * Proc A))).
    + apply Hfz.
    + destruct (step_all g) as [|[p st] sts]; [reflexivity|].
      apply Forall_inv in Hnw. cbn [snd] in Hnw. destruct st; tauto.
  - destruct fuel' as [|fuel']; [lia|]. cbn [run_group].
    destruct (collective (step_all g)) as [g'|]; [|reflexivity].
    apply IH; [exact Hfin|lia].
Qed.

(** ** Traces *)

Section Monitor.

Variable S : Type.
(** What a process of a given rank and backend may do. *)
Variable mon : Z -> string -> S -> event -> S -> Prop.
(** The number of collectives that may still be entered. *)
Variable left : S -> nat.
Hypothesis mon_left : forall rank backend s e s',
  mon rank backend s e s' ->
  (left s' + (if enters_collective e then 1 else 0))%nat = left s.

Lemma steps_app (rank : Z) (backend : string) (s s1 s2 : S) (es es' : list event) :
  steps (mon rank backend) s es s1 -> steps (mon rank backend) s1 es' s2 ->
  steps (mon rank backend) s (es ++ es') s2.
Proof.
  revert s. induction es as [|e es IH]; intros s H1 H2; cbn in *.
  - now subst s1.
  - destruct H1 as (s0 & He & Hes). exists s0. split; [exact He|]. now apply IH.
Qed.

Lemma steps_left (rank : Z) (backend : string) (s s' : S) (es : list event) :
  steps (mon rank backend) s es s' -> (left s' <= left s)%nat.
Proof.
  revert s. induction es as [|e es IH]; intros s H; cbn in H.
  - subst s'. lia.
  - destruct H as (s0 & He & Hes). apply IH in Hes. apply mon_left in He. lia.
Qed.

Ltac finish_rest He Hrest :=
  apply mon_left in He; cbn in He, Hrest;
  match type of Hrest with
  | match ?X with _ => _ end => destruct X
  end; auto;
  let Hlt := fresh "Hlt" in
  destruct Hrest as [Hlt Hrest]; (split; [lia|exact Hrest]).

(** An accepted program, run up to its next collective. *)
Lemma accepted_run_local {A : Type} (c : Proc A) (p : participant) (s : S) :
  accepted (mon (p_rank p) (p_backend p)) (p_rank p) (p_backend p) (p_uninit p) s c ->
  exists es s1,
    p_log (fst (run_local p c)) = p_log p ++ es /\
    steps (mon (p_rank p) (p_backend p)) s es s1 /\
    match snd (run_local p c) with
    | AtBroadcast buf src k =>
        (left s1 < left s)%nat /\
        forall sb, exists s2,
          mon (p_rank p) (p_backend p) s1 (EvBroadcastExit (receive buf sb)) s2 /\
          accepted (mon (p_rank p) (p_backend p)) (p_rank p) (p_backend p) (p_uninit p)
            s2 (k (receive buf sb))
    | AtBarrier k =>
        (left s1 < left s)%nat /\
        exists s2,
          mon (p_rank p) (p_backend p) s1 EvBarrierExit s2 /\
          accepted (mon (p_rank p) (p_backend p)) (p_rank p) (p_backend p) (p_uninit p)
            s2 k
    | _ => True
    end.
Proof.
  revert p s.
  induction c as [a|e|k IH|k IH|n dt k IH|k IH|m k IH|buf src k IH|k IH];
    intros p s Hacc; cbn [accepted] in Hacc; cbn [run_local].
  - exists [], s. cbn. now rewrite app_nil_r.
  - exists [], s. cbn. now rewrite app_nil_r.
  - now apply IH.
  - now apply IH.
  - destruct (n <? 0) eqn:Hn.
    + exists [], s. cbn. now rewrite app_nil_r.
    + destruct Hacc as [Hneg|(s1 & He & Hk)]; [apply Z.ltb_ge in Hn; lia|].
      destruct (IH _ (log p (EvEmpty n dt)) s1 Hk) as (es & s2 & Hlog & Hst & Hrest).
      unfold uninit.
      exists (EvEmpty n dt :: es), s2. split; [|split].
      * rewrite Hlog. cbn. now rewrite <- app_assoc.
      * cbn. exists s1. split; [exact He|exact Hst].
      * finish_rest He Hrest.
  - destruct Hacc as (s1 & He & Hk).
    destruct (p_delegate p) as [t|].
    + destruct (IH (log p EvAssertDelegate) s1 Hk) as (es & s2 & Hlog & Hst & Hrest).
      exists (EvAssertDelegate :: es), s2. split; [|split].
      * rewrite Hlog. cbn. now rewrite <- app_assoc.
      * cbn. exists s1. split; [exact He|exact Hst].
      * finish_rest He Hrest.
    + exists [EvAssertDelegate], s1. cbn. split; [reflexivity|]. split; [|exact I].
      exists s1. split; [exact He|reflexivity].
  - destruct Hacc as (s1 & He & Hk).
    destruct (p_delegate p) as [t|].
    + destruct (snd (invoke t m)) as [v|e].
      * destruct (IH v (set_delegate (log p (EvDelegate m)) (fst (invoke t m))) s1 (Hk v))
          as (es & s2 & Hlog & Hst & Hrest).
        exists (EvDelegate m :: es), s2. split; [|split].
        -- rewrite Hlog. cbn. now rewrite <- app_assoc.
        -- cbn. exists s1. split; [exact He|exact Hst].
        -- finish_rest He Hrest.
      * exists [EvDelegate m], s1. cbn. split; [reflexivity|]. split; [|exact I].
        exists s1. split; [exact He|reflexivity].
    + exists [EvDelegate m], s1. cbn. split; [reflexivity|]. split; [|exact I].
      exists s1. split; [exact He|reflexivity].
  - destruct Hacc as (s1 & He & Hk).
    exists [EvBroadcastEnter buf src], s1. cbn. split; [reflexivity|]. split.
    + exists s1. split; [exact He|reflexivity].
    + apply mon_left in He. cbn in He. split; [lia|exact Hk].
  - destruct Hacc as (s1 & He & Hk).
    exists [EvBarrierEnter], s1. cbn. split; [reflexivity|]. split.
    + exists s1. split; [exact He|reflexivity].
    + apply mon_left in He. cbn in He. split; [lia|exact Hk].
Qed.

(** An accepted program is accepted again when it leaves a collective. *)
Lemma accepted_resumed {A : Type} (pc pc' : participant * Proc A) (s : S) :
  accepted (mon (p_rank (fst pc)) (p_backend (fst pc)))
    (p_rank (fst pc)) (p_backend (fst pc)) (p_uninit (fst pc)) s (snd pc) ->
  resumed (run_local (fst pc) (snd pc)) pc' ->
  exists es s2,
    p_log (fst pc') = p_log (fst pc) ++ es /\
    steps (mon (p_rank (fst pc)) (p_backend (fst pc))) s es s2 /\
    (left s2 < left s)%nat /\
    p_rank (fst pc') = p_rank (fst pc) /\ p_backend (fst pc') = p_backend (fst pc) /\
    accepted (mon (p_rank (fst pc')) (p_backend (fst pc')))
      (p_rank (fst pc')) (p_backend (fst pc')) (p_uninit (fst pc')) s2 (snd pc').
Proof.
  intros Hacc Hr. destruct pc as [p c]. cbn [fst snd] in *.
  destruct (accepted_run_local c p s Hacc) as (es & s1 & Hlog & Hst & Hrest).
  destruct (run_local_env c p) as (E1 & E2 & E3).
  unfold resumed in Hr.
  destruct (snd (run_local p c)) as [a|e|buf src k|k]; try contradiction.
  - destruct Hr as (sb & ->). cbn [fst snd]. destruct Hrest as [Hlt Hk].
    destruct (Hk sb) as (s2 & He & Hk2).
    exists (es ++ [EvBroadcastExit (receive buf sb)]), s2.
    cbn [log p_log p_rank p_backend p_uninit]. rewrite E1, E2, E3, Hlog.
    split; [now rewrite app_assoc|]. split; [|split; [|auto]].
    + eapply steps_app; [exact Hst|]. cbn. exists s2. split; [exact He|reflexivity].
    + apply mon_left in He. cbn in He. lia.
  - subst pc'. cbn [fst snd]. destruct Hrest as [Hlt (s2 & He & Hk2)].
    exists (es ++ [EvBarrierExit]), s2.
    cbn [log p_log p_rank p_backend p_uninit]. rewrite E1, E2, E3, Hlog.
    split; [now rewrite app_assoc|]. split; [|split; [|auto]].
    + eapply steps_app; [exact Hst|]. cbn. exists s2. split; [exact He|reflexivity].
    + apply mon_left in He. cbn in He. lia.
Qed.

(** In a run of the group, the events of a process whose program is accepted
    are steps of [mon]. *)
Lemma accepted_group {A : Type} (fuel : nat) (g : list (participant * Proc A)) :
  Forall2 (fun pc po =>
             forall s,
               accepted (mon (p_rank (fst pc)) (p_backend (fst pc)))
                 (p_rank (fst pc)) (p_backend (fst pc)) (p_uninit (fst pc)) s (snd pc) ->
               exists es s',
                 p_log (fst po) = p_log (fst pc) ++ es /\
                 steps (mon (p_rank (fst pc)) (p_backend (fst pc))) s es s')
    g (run_group fuel g).
Proof.
  assert (Hfin : forall w (g : list (participant * Proc A)),
    Forall2 (fun pc po =>
             forall s,
               accepted (mon (p_rank (fst pc)) (p_backend (fst pc)))
                 (p_rank (fst pc)) (p_backend (fst pc)) (p_uninit (fst pc)) s (snd pc) ->
               exists es s',
                 p_log (fst po) = p_log (fst pc) ++ es /\
                 steps (mon (p_rank (fst pc)) (p_backend (fst pc))) s es s')
      g (map (finalize w) (step_all g))).
  { intros w g0. unfold step_all. rewrite map_map. apply Forall2_map_self.
    intros [p c] s Hacc. cbn [fst snd finalize] in *.
    destruct (accepted_run_local c p s Hacc) as (es & s1 & Hlog & Hst & _).
    eauto. }
  revert g. induction fuel as [|fuel IH]; intros g; cbn [run_group].
  - apply Hfin.
  - destruct (collective (step_all g)) as [g'|] eqn:Hc; [|apply Hfin].
    apply collective_resumed in Hc. unfold step_all in Hc.
    apply Forall2_map_left in Hc.
    eapply Forall2_impl; [|exact (Forall2_chain _ _ _ _ _ Hc (IH g'))].
    intros pc po (pc' & Hr & Hq') s Hacc. cbn beta in Hr.
    destruct (accepted_resumed pc pc' s Hacc Hr)
      as (es & s2 & Hlog & Hst & _ & E1 & E2 & Hacc').
    destruct (Hq' s2 Hacc') as (es' & s3 & Hlog' & Hst').
    exists (es ++ es'), s3. rewrite Hlog', Hlog. split; [now rewrite app_assoc|].
    rewrite E1, E2 in Hst'. eapply steps_app; eauto.
Qed.

(** With as much fuel as collectives are allowed, no process is cut off. *)
Lemma accepted_finished {A : Type} (fuel : nat) (g : list (participant * Proc A)) :
  Forall (fun pc => exists s,
            accepted (mon (p_rank (fst pc)) (p_backend (fst pc)))
              (p_rank (fst pc)) (p_backend (fst pc)) (p_uninit (fst pc)) s (snd pc) /\
            (left s <= fuel)%nat) g ->
  finished (run_group fuel g).
Proof.
  revert g. induction fuel as [|fuel IH]; intros g Hg; cbn [run_group].
  - unfold finished. apply Forall_forall. intros po Hin.
    apply in_map_iff in Hin. destruct Hin as ([p' st] & <- & Hin).
    unfold step_all in Hin. apply in_map_iff in Hin.
    destruct Hin as ([p c] & Hrun & Hin). cbn [fst snd] in Hrun.
    rewrite Forall_forall in Hg. destruct (Hg _ Hin) as (s & Hacc & Hle).
    cbn [fst snd] in Hacc.
    destruct (accepted_run_local c p s Hacc) as (es & s1 & _ & _ & Hrest).
    rewrite Hrun in Hrest. unfold finalize. cbn [fst snd] in *.
    destruct st; try discriminate; destruct Hrest as [Hlt _]; lia.
  - destruct (collective (step_all g)) as [g'|] eqn:Hc.
    + apply IH. apply collective_resumed in Hc. unfold step_all in Hc.
      apply Forall2_map_left in Hc.
      induction Hc as [|pc pc' g0 g0' Hr Hc IHc]; constructor.
      * apply Forall_inv in Hg. destruct Hg as (s & Hacc & Hle).
        destruct (accepted_resumed pc pc' s Hacc Hr)
          as (es & s2 & _ & _ & Hlt & _ & _ & Hacc').
        exists s2. split; [exact Hacc'|lia].
      * apply IHc. eapply Forall_inv_tail; eauto.
    + unfold finished. apply Forall_forall. intros po Hin.
      apply in_map_iff in Hin. destruct Hin as ([p' st] & <- & _).
      unfold finalize. cbn [fst snd]. destruct st; discriminate.
Qed.

End Monitor.

(** ** What a method of the wrapper may do *)

Lemma allowed_left (m : method) (rank : Z) (backend : string)
  (s : nat * nat) (e : event) (s' : nat * nat) :
  allowed m rank backend s e s' ->
  (snd s' + (if enters_collective e then 1 else 0))%nat = snd s.
Proof.
  destruct e; cbn; intros H; decompose [and] H; subst; lia.
Qed.

Lemma scalar_not_side_effecting (m : method) (dt : dtype) :
  scalar_kind m = Some dt -> side_effecting m = false.
Proof. destruct m; simpl; intros H; try discriminate; reflexivity. Qed.

Lemma setitem0_shape (t t' : tensor) (v : value) :
  setitem0 t v = Ok t' ->
  t_dtype t' = t_dtype t /\ List.length (t_data t') = List.length (t_data t) /\
  t_device t' = t_device t.
Proof.
  unfold setitem0. destruct (t_data t) as [|c rest]; [discriminate|].
  destruct (store (t_dtype t) v); cbn; [|discriminate].
  intros H. inversion H; subst. cbn. auto.
Qed.

Lemma device_of_buffer (rank : Z) (backend : string) (t : tensor) :
  t_device t = cpu ->
  t_device (if String.eqb backend "nccl" then tensor_cuda t rank else t)
  = device_of rank backend.
Proof. intros H. unfold device_of. destruct (String.eqb backend "nccl"); auto. Qed.

Lemma dtype_of_buffer (rank : Z) (backend : string) (t : tensor) :
  t_dtype (if String.eqb backend "nccl" then tensor_cuda t rank else t) = t_dtype t.
Proof. now destruct (String.eqb backend "nccl"). Qed.

Lemma data_of_buffer (rank : Z) (backend : string) (t : tensor) :
  t_data (if String.eqb backend "nccl" then tensor_cuda t rank else t) = t_data t.
Proof. now destruct (String.eqb backend "nccl"). Qed.

Lemma lift_accepted {S A : Type} (mon : S -> event -> S -> Prop) (rank : Z)
  (backend : string) (un : dtype -> nat -> cell) (s : S) (r : result A) :
  accepted mon rank backend un s (lift r).
Proof. now destruct r. Qed.

(** The closure of rank 0 followed by [f] and [g]. *)
Lemma closure_accepted {A B : Type} (m : method) (backend : string)
  (un : dtype -> nat -> cell) (n : nat) (f : value -> Proc A) (g : A -> Proc B) :
  (forall v, accepted (allowed m 0 backend) 0 backend un (0%nat, n) (bind (f v) g)) ->
  accepted (allowed m 0 backend) 0 backend un (1%nat, n) (bind (bind (closure m) f) g).
Proof.
  intros H.
  destruct m; cbn;
    (exists (1%nat, n); split; [split; reflexivity|];
     exists (0%nat, n); split; [repeat split|]; intros x; apply H).
Qed.

Lemma func_of_accepted {A B : Type} (m : method) (backend : string)
  (un : dtype -> nat -> cell) (n : nat) (f : value -> Proc A) (g : A -> Proc B) :
  (forall v, accepted (allowed m 0 backend) 0 backend un (0%nat, n) (bind (f v) g)) ->
  accepted (allowed m 0 backend) 0 backend un (1%nat, n) (bind (bind (func_of m) f) g).
Proof.
  intros H. cbn.
  exists (1%nat, n). split; [split; reflexivity|].
  exists (0%nat, n). split; [repeat split|]. intros v. apply H.
Qed.

(** The last broadcast of a value method and the return. *)
Lemma last_broadcast_accepted (m : method) (rank : Z) (backend : string)
  (un : dtype -> nat -> cell) (c : nat) (buf : tensor) (h : tensor -> result value) :
  side_effecting m = false ->
  t_device buf = cpu ->
  kind_ok m 1 buf ->
  accepted (allowed m rank backend) rank backend un (c, 1%nat)
    (Broadcast (if String.eqb backend "nccl" then tensor_cuda buf rank else buf) 0
       (fun t => lift (h t))).
Proof.
  intros Hs Hdev Hkind. cbn.
  exists (c, 0%nat). split.
  - repeat split; auto.
    + now apply device_of_buffer.
    + unfold kind_ok in *. cbn [snd]. rewrite dtype_of_buffer, data_of_buffer.
      exact Hkind.
  - intros sb. exists (c, 0%nat). split.
    + split; [|reflexivity]. cbn. now apply device_of_buffer.
    + apply lift_accepted.
Qed.

Lemma scalar_accepted (m : method) (dt : dtype) (rank : Z) (backend : string)
  (un : dtype -> nat -> cell) :
  scalar_kind m = Some dt ->
  accepted (allowed m rank backend) rank backend un (1%nat, 1%nat)
    (_call_and_communicate (closure m) dt).
Proof.
  intros Hk. pose proof (scalar_not_side_effecting _ _ Hk) as Hs.
  unfold _call_and_communicate. cbn -[setitem0 closure].
  right. exists (1%nat, 1%nat). split; [reflexivity|].
  destruct (rank =? 0) eqn:Hr.
  - apply Z.eqb_eq in Hr. subst rank.
    apply closure_accepted. intros v.
    destruct (setitem0 _ v) as [buf|e] eqn:Hset; cbn; [|exact I].
    apply setitem0_shape in Hset. cbn in Hset. destruct Hset as (Hdt & Hlen & Hdev).
    apply (last_broadcast_accepted m 0 backend un 0 buf item Hs Hdev).
    unfold kind_ok. rewrite Hk. auto.
  - cbn -[accepted].
    apply last_broadcast_accepted; [exact Hs|reflexivity|].
    unfold kind_ok. rewrite Hk. auto.
Qed.

Lemma receive_payload_accepted (m : method) (rank : Z) (backend : string)
  (un : dtype -> nat -> cell) (c : nat) (buffer : option tensor) (sz : tensor) :
  scalar_kind m = None ->
  side_effecting m = false ->
  match buffer with
  | Some b => t_device b = cpu /\ t_dtype b = torch_uint8
  | None => True
  end ->
  accepted (allowed m rank backend) rank backend un (c, 1%nat)
    (receive_payload rank buffer sz).
Proof.
  intros Hk Hs Hbuf. unfold receive_payload.
  destruct (rbind (item sz) py_int) as [n|e]; cbn; [|exact I].
  assert (Hlast : forall b, t_device b = cpu -> t_dtype b = torch_uint8 ->
            accepted (allowed m rank backend) rank backend un (c, 1%nat)
              (Broadcast (if String.eqb backend "nccl" then tensor_cuda b rank else b) 0
                 (fun t => lift (_from_tensor t)))).
  { intros b Hdev Hdt. apply last_broadcast_accepted; auto.
    unfold kind_ok. rewrite Hk. exact Hdt. }
  destruct (rank =? 0); cbn.
  - destruct buffer as [b|]; cbn; [|exact I]. destruct Hbuf. now apply Hlast.
  - right. exists (c, 1%nat). split; [reflexivity|]. now apply Hlast.
Qed.

Lemma obj_accepted (m : method) (rank : Z) (backend : string)
  (un : dtype -> nat -> cell) :
  scalar_kind m = None ->
  side_effecting m = false ->
  accepted (allowed m rank backend) rank backend un (1%nat, 2%nat)
    (_call_and_communicate_obj (func_of m)).
Proof.
  intros Hk Hs. rewrite obj_two_phases.
  cbn -[setitem0 func_of _to_tensor receive_payload].
  right. exists (1%nat, 2%nat). split; [reflexivity|].
  assert (Hfirst : forall (c : nat) (sbuf : tensor) (buffer : option tensor),
            t_device sbuf = cpu -> t_dtype sbuf = torch_int ->
            List.length (t_data sbuf) = 1%nat ->
            match buffer with
            | Some b => t_device b = cpu /\ t_dtype b = torch_uint8
            | None => True
            end ->
            accepted (allowed m rank backend) rank backend un (c, 2%nat)
              (Broadcast
                 (if String.eqb backend "nccl" then tensor_cuda sbuf rank else sbuf) 0
                 (fun t => receive_payload rank buffer t))).
  { intros c sbuf buffer Hdev Hdt Hlen Hbuf. cbn -[receive_payload].
    exists (c, 1%nat). split.
    - repeat split; auto.
      + now apply device_of_buffer.
      + unfold kind_ok. cbn [snd]. rewrite Hk, dtype_of_buffer, data_of_buffer. auto.
    - intros sb. exists (c, 1%nat). split.
      + split; [|reflexivity]. cbn. now apply device_of_buffer.
      + now apply receive_payload_accepted. }
  destruct (rank =? 0) eqn:Hr.
  - apply Z.eqb_eq in Hr. subst rank.
    apply func_of_accepted. intros v.
    unfold _to_tensor. destruct (dumps v) as [payload|e];
      cbn -[setitem0 receive_payload]; [|exact I].
    destruct (setitem0 _ _) as [sbuf|e] eqn:Hset; cbn -[receive_payload]; [|exact I].
    apply setitem0_shape in Hset. cbn in Hset. destruct Hset as (Hdt & Hlen & Hdev).
    apply Hfirst; auto.
  - cbn -[receive_payload]. apply Hfirst; auto.
Qed.

Lemma leader_only_accepted (m : method) (rank : Z) (backend : string)
  (un : dtype -> nat -> cell) :
  side_effecting m = true ->
  accepted (allowed m rank backend) rank backend un (1%nat, 1%nat) (leader_only m).
Proof.
  intros Hs. unfold leader_only. cbn.
  destruct (rank =? 0) eqn:Hr; cbn.
  - apply Z.eqb_eq in Hr. subst rank.
    exists (1%nat, 1%nat). split; [split; reflexivity|].
    exists (0%nat, 1%nat). split; [repeat split|]. intros v.
    exists (0%nat, 0%nat). split; [repeat split; auto|].
    exists (0%nat, 0%nat). split; [reflexivity|exact I].
  - exists (1%nat, 0%nat). split; [repeat split; auto|].
    exists (1%nat, 0%nat). split; [reflexivity|exact I].
Qed.

Lemma facade_accepted (m : method) (rank : Z) (backend : string)
  (un : dtype -> nat -> cell) :
  accepted (allowed m rank backend) rank backend un (1%nat, collectives m) (facade m).
Proof.
  unfold collectives. destruct (side_effecting m) eqn:Hs.
  - rewrite (facade_effect _ Hs). now apply leader_only_accepted.
  - destruct (scalar_kind m) as [dt|] eqn:Hk.
    + rewrite (facade_scalar _ _ Hk). now apply scalar_accepted.
    + rewrite (facade_obj _ Hk Hs). now apply obj_accepted.
Qed.

(** *** What the steps of [allowed] say about a trace *)

Lemma steps_allowed_calls (m : method) (rank : Z) (backend : string)
  (s s' : nat * nat) (es : list event) :
  steps (allowed m rank backend) s es s' ->
  (List.length (delegate_calls es) + fst s')%nat = fst s /\
  Forall (eq m) (delegate_calls es).
Proof.
  revert s. induction es as [|e es IH]; intros s H; cbn in H.
  - subst s'. cbn. auto.
  - destruct H as (s1 & He & Hes). destruct (IH _ Hes) as [Hlen Hall].
    destruct e; cbn in He |- *; decompose [and] He; subst;
      try (split; [cbn; lia|]); auto.
Qed.

Lemma steps_allowed_collectives (m : method) (rank : Z) (backend : string)
  (s s' : nat * nat) (es : list event) :
  steps (allowed m rank backend) s es s' ->
  (List.length (broadcasts es) + barriers es + snd s')%nat = snd s /\
  (side_effecting m = true -> broadcasts es = []) /\
  (side_effecting m = false -> barriers es = 0%nat).
Proof.
  revert s. induction es as [|e es IH]; intros s H; cbn in H.
  - subst s'. cbn. auto.
  - destruct H as (s1 & He & Hes). destruct (IH _ Hes) as (Hlen & Hb & Hr).
    destruct e; cbn in He |- *; decompose [and] He; subst;
      try (split; [lia|split; [exact Hb|exact Hr]]).
    + split; [lia|]. split; [congruence|exact Hr].
    + split; [lia|]. split; [exact Hb|congruence].
Qed.

Lemma steps_allowed_broadcasts (m : method) (rank : Z) (backend : string)
  (s s' : nat * nat) (es : list event) :
  steps (allowed m rank backend) s es s' ->
  Forall (fun bs => snd bs = 0 /\ t_device (fst bs) = device_of rank backend)
    (broadcasts es)
  /\ kinds_from m (snd s) (broadcasts es).
Proof.
  revert s. induction es as [|e es IH]; intros s H; cbn in H.
  - cbn. auto.
  - destruct H as (s1 & He & Hes). destruct (IH _ Hes) as [Hall Hkinds].
    destruct (steps_allowed_collectives _ _ _ _ _ _ Hes) as (_ & Hnone & _).
    destruct e as [n dt| |m'|buf src|buf| |]; cbn in He |- *.
    + subst s1. auto.
    + destruct He as [_ ->]. auto.
    + destruct He as (_ & _ & _ & E). rewrite <- E. auto.
    + destruct He as (-> & _ & Hdev & Hkind & E & _). split.
      * constructor; auto.
      * split; [exact Hkind|]. rewrite E. exact Hkinds.
    + destruct He as [_ ->]. auto.
    + destruct He as (Hs & _ & _). rewrite (Hnone Hs). cbn. auto.
    + subst s1. auto.
Qed.

Lemma kinds_from_uint8 (m : method) (n : nat) (bs : list (tensor * Z)) :
  scalar_kind m = None -> (n <= 1)%nat -> kinds_from m n bs ->
  Forall (fun b => t_dtype (fst b) = torch_uint8) bs.
Proof.
  intros Hk. revert n. induction bs as [|[buf src] bs IH]; intros n Hn H; cbn in H.
  - constructor.
  - destruct H as [Hkind H]. constructor.
    + unfold kind_ok in Hkind. rewrite Hk in Hkind. cbn.
      destruct n as [|[|[|n]]]; auto; lia.
    + apply (IH (Nat.pred n)); [lia|exact H].
Qed.

Lemma kinds_from_scalar (m : method) (dt : dtype) (n : nat) (bs : list (tensor * Z)) :
  scalar_kind m = Some dt -> kinds_from m n bs ->
  Forall (fun b => t_dtype (fst b) = dt /\ List.length (t_data (fst b)) = 1%nat) bs.
Proof.
  intros Hk. revert n. induction bs as [|[buf src] bs IH]; intros n H; cbn in H.
  - constructor.
  - destruct H as [Hkind H]. constructor; [|now apply (IH (Nat.pred n))].
    unfold kind_ok in Hkind. now rewrite Hk in Hkind.
Qed.

(** The events of every process in every run of a method are steps of
    [allowed]. *)
Lemma facade_trace (m : method) (w : list participant) (fuel : nat) :
  Forall2 (fun p po =>
             exists es s',
               p_log (fst po) = p_log p ++ es /\
               steps (allowed m (p_rank p) (p_backend p)) (1%nat, collectives m) es s')
    w (run_group fuel (call_on_all (facade m) w)).
Proof.
  pose proof (accepted_group (nat * nat) (allowed m) snd (allowed_left m) fuel
                (call_on_all (facade m) w)) as H.
  unfold call_on_all in H at 1. apply Forall2_map_left in H.
  eapply Forall2_impl; [|exact H].
  intros p po Hq. cbn [fst snd] in Hq. apply Hq. apply facade_accepted.
Qed.

(** * Properties of every run *)

(** X8 (one call of the trial at most).  In every run of a method of the wrapper,
    on every group, a process calls the trial at most once, and then the
    trial's method of the same name with the same arguments. *)
Theorem one_call_of_the_same_method (m : method) (w : list participant) (fuel : nat) :
  Forall2 (fun p po =>
             exists es, p_log (fst po) = p_log p ++ es /\
                        (delegate_calls es = [] \/ delegate_calls es = [m]))
    w (run_group fuel (call_on_all (facade m) w)).
Proof.
  eapply Forall2_impl; [|exact (facade_trace m w fuel)].
  intros p po (es & s' & Hlog & Hst). exists es. split; [exact Hlog|].
  destruct (steps_allowed_calls _ _ _ _ _ _ Hst) as [Hlen Hall]. cbn [fst] in Hlen.
  destruct (delegate_calls es) as [|m1 [|m2 ms]]; auto.
  - right. apply Forall_inv in Hall. now subst m1.
  - cbn in Hlen. lia.
Qed.

(** X9 (the collectives of a call).  In every run, a process enters at most one
    barrier and no broadcast during [report], [set_user_attr] and
    [set_system_attr]; no barrier and at most one broadcast during a method
    that returns a number; no barrier and at most two broadcasts during a
    method that returns an object. *)
Theorem collectives_of_a_call (m : method) (w : list participant) (fuel : nat) :
  Forall2 (fun p po =>
             exists es, p_log (fst po) = p_log p ++ es /\
                        (List.length (broadcasts es) + barriers es <= collectives m)%nat /\
                        (side_effecting m = true -> broadcasts es = []) /\
                        (side_effecting m = false -> barriers es = 0%nat))
    w (run_group fuel (call_on_all (facade m) w)).
Proof.
  eapply Forall2_impl; [|exact (facade_trace m w fuel)].
  intros p po (es & s' & Hlog & Hst). exists es. split; [exact Hlog|].
  destruct (steps_allowed_collectives _ _ _ _ _ _ Hst) as (Hlen & Hb & Hr).
  cbn [snd] in Hlen. split; [lia|]. auto.
Qed.

(** X10 (the buffers of the broadcasts).  In every run, every broadcast a process
    enters has rank 0 as its source and a buffer on the GPU of the process's
    rank when the backend is nccl, on the host otherwise.  For a method that
    returns a number the buffer has one element of the method's kind; for a
    method that returns an object the first buffer has one [torch.int]
    element and a later one holds [torch.uint8] elements. *)
Theorem buffers_of_the_broadcasts (m : method) (w : list participant) (fuel : nat) :
  Forall2 (fun p po =>
             exists es,
               p_log (fst po) = p_log p ++ es /\
               Forall (fun bs => snd bs = 0 /\
                                 t_device (fst bs) = device_of (p_rank p) (p_backend p))
                 (broadcasts es) /\
               match scalar_kind m with
               | Some dt =>
                   Forall (fun bs => t_dtype (fst bs) = dt /\
                                     List.length (t_data (fst bs)) = 1%nat)
                     (broadcasts es)
               | None =>
                   match broadcasts es with
                   | [] => True
                   | first :: rest =>
                       t_dtype (fst first) = torch_int /\
                       List.length (t_data (fst first)) = 1%nat /\
                       Forall (fun bs => t_dtype (fst bs) = torch_uint8) rest
                   end
               end)
    w (run_group fuel (call_on_all (facade m) w)).
Proof.
  eapply Forall2_impl; [|exact (facade_trace m w fuel)].
  intros p po (es & s' & Hlog & Hst). exists es. split; [exact Hlog|].
  destruct (steps_allowed_broadcasts _ _ _ _ _ _ Hst) as [Hall Hkinds].
  split; [exact Hall|]. cbn [snd] in Hkinds.
  destruct (steps_allowed_collectives _ _ _ _ _ _ Hst) as (_ & Hb & _).
  destruct (scalar_kind m) as [dt|] eqn:Hk.
  - now apply (kinds_from_scalar m dt (collectives m)).
  - destruct (broadcasts es) as [|[b1 src1] rest] eqn:Hbs; [exact I|].
    cbn in Hkinds. destruct Hkinds as [Hkind Hrest].
    unfold collectives in Hkind, Hrest. rewrite Hk in Hkind, Hrest.
    destruct (side_effecting m) eqn:Hs; [specialize (Hb eq_refl); congruence|].
    unfold kind_ok in Hkind. rewrite Hk in Hkind. cbn in Hkind, Hrest.
    destruct Hkind as [Hdt Hlen]. cbn [fst]. repeat split; auto.
    now apply (kinds_from_uint8 m 1).
Qed.

(** X11 (a call is over after its collectives).  With fuel for one collective
    (two for a method that returns an object) no process is cut off, and
    more fuel does not change the outcome. *)
Theorem call_ends_after_its_collectives (m : method) (w : list participant) (fuel : nat) :
  (collectives m <= fuel)%nat ->
  finished (run_group fuel (call_on_all (facade m) w)) /\
  run_group fuel (call_on_all (facade m) w)
  = run_group (collectives m) (call_on_all (facade m) w).
Proof.
  intros Hle.
  assert (Hfin : finished (run_group (collectives m) (call_on_all (facade m) w))).
  { apply (accepted_finished (nat * nat) (allowed m) snd (allowed_left m)).
    apply Forall_forall. intros pc Hin. unfold call_on_all in Hin.
    apply in_map_iff in Hin. destruct Hin as (p & <- & _). cbn [fst snd].
    exists (1%nat, collectives m). split; [apply facade_accepted|cbn; lia]. }
  pose proof (run_group_more_fuel _ _ _ Hfin Hle) as E. rewrite E. auto.
Qed.

(** * Calls one after the other *)

Lemma and_then_call_on_all {A B : Type} (c : Proc A) (k : A -> Proc B)
  (w : list participant) :
  and_then k (call_on_all c w) = call_on_all (bind c k) w.
Proof. unfold and_then, call_on_all. rewrite map_map. reflexivity. Qed.

Lemma all_returned_same (v : value) (outs : list (participant * outcome value)) :
  Forall (fun po => snd po = Returned v) outs ->
  outs = map (fun q => (q, Returned v)) (map fst outs).
Proof.
  induction 1 as [|[q o] outs Ho _ IH]; cbn; [reflexivity|].
  cbn in Ho. subst o. now rewrite <- IH.
Qed.

(** X12 (the value goes on to the next call).  When a process returns [v] from a
    method that produces a value, every process has returned [v]; and
    whatever the caller does next with the value, every process does it with
    [v], from the state in which it returned. *)
Theorem agreed_value_continues {B : Type} (m : method) (w : list participant)
  (f1 f2 : nat) (p : participant) (v : value) (k : value -> Proc B) :
  side_effecting m = false ->
  In (p, Returned v) (run_group f1 (call_on_all (facade m) w)) ->
  exists w',
    run_group f1 (call_on_all (facade m) w) = map (fun q => (q, Returned v)) w' /\
    (finished (run_group f2 (call_on_all (k v) w')) ->
     run_group (f1 + f2) (call_on_all (bind (facade m) k) w)
     = run_group f2 (call_on_all (k v) w')).
Proof.
  intros Hs Hin.
  assert (Hall : Forall (fun po => snd po = Returned v)
                   (run_group f1 (call_on_all (facade m) w))).
  { destruct (facade_agreed m w f1 Hs) as [(v' & Hall)|Hnone].
    - rewrite Forall_forall in Hall. pose proof (Hall _ Hin) as Hv. simpl in Hv.
      inversion Hv; subst. now apply Forall_forall.
    - rewrite Forall_forall in Hnone. exfalso. exact (Hnone _ Hin v eq_refl). }
  apply all_returned_same in Hall.
  set (w' := map fst (run_group f1 (call_on_all (facade m) w))) in *.
  exists w'. split; [exact Hall|]. intros Hfin.
  assert (Hret : run_group f1 (call_on_all (facade m) w)
                 = returned_all (map (fun q => (q, v)) w')).
  { rewrite Hall at 1. unfold returned_all. rewrite map_map. reflexivity. }
  destruct (run_group_and_then k f1 _ _ Hret) as (used & Hle & Hrun).
  assert (Hk : continue_with k (map (fun q => (q, v)) w') = call_on_all (k v) w').
  { unfold continue_with, call_on_all. rewrite map_map. reflexivity. }
  specialize (Hrun f2). rewrite and_then_call_on_all, Hk in Hrun.
  rewrite <- Hrun. apply run_group_more_fuel; [|lia]. now rewrite Hrun.
Qed.

(** X13 (the mutation comes before the next call).  After [report],
    [set_user_attr] or [set_system_attr], whatever the processes do next they
    do after the barrier, on a group whose leader's trial already holds what
    the method recorded. *)
Theorem next_call_follows_the_mutation {B : Type} (m : method) (l : participant)
  (fs : list participant) (t : Trial) (v : value) (c2 : Proc B) (f2 : nat) :
  side_effecting m = true ->
  well_formed (l :: fs) ->
  p_delegate l = Some t ->
  snd (invoke t m) = Ok v ->
  run_group (S f2) (call_on_all (bind (facade m) (fun _ => c2)) (l :: fs)) =
  run_group f2
    (call_on_all c2
       (logs (set_delegate (logs l [EvAssertDelegate; EvDelegate m]) (fst (invoke t m)))
          [EvBarrierEnter; EvBarrierExit]
        :: map (fun p => logs p [EvBarrierEnter; EvBarrierExit]) fs)).
Proof.
  intros Hs Hw Hd Hi.
  destruct (well_formed_cons _ _ Hw) as [Hl Hfs]. rewrite Forall_forall in Hfs.
  rewrite (facade_effect _ Hs). cbn [run_group].
  rewrite <- and_then_call_on_all, step_all_and_then.
  assert (Hstep : step_all (call_on_all (leader_only m) (l :: fs)) =
            (log (set_delegate (logs l [EvAssertDelegate; EvDelegate m])
                    (fst (invoke t m))) EvBarrierEnter,
             AtBarrier (Ret VNone))
            :: map (fun p => (log p EvBarrierEnter, AtBarrier (Ret VNone))) fs).
  { unfold step_all, call_on_all. cbn [map fst snd].
    rewrite (leader_only_leader_ok _ _ _ _ Hl Hd Hi). f_equal.
    rewrite map_map. apply map_ext_in. intros p Hp. cbn [fst snd].
    apply leader_only_follower. auto. }
  rewrite Hstep.
  rewrite (collective_then (fun _ => c2) _ _ (collective_barrier _ _ _ _ _)).
  f_equal. unfold and_then, call_on_all. cbn [map fst snd bind]. f_equal.
  rewrite !map_map. reflexivity.
Qed.

(** * The trial changes only through the calls *)

Lemma delegate_calls_app (es es' : list event) :
  delegate_calls (es ++ es') = delegate_calls es ++ delegate_calls es'.
Proof.
  induction es as [|e es IH]; cbn; [reflexivity|].
  destruct e; cbn; now rewrite ?IH.
Qed.

Lemma replay_app (d : option Trial) (ms ms' : list method) :
  replay d (ms ++ ms') = replay (replay d ms) ms'.
Proof. unfold replay. apply fold_left_app. Qed.

(** The trial reference of a process is what the calls in its log made of
    it. *)
Lemma run_local_replay {A : Type} (c : Proc A) (p : participant) :
  exists es,
    p_log (fst (run_local p c)) = p_log p ++ es /\
    p_delegate (fst (run_local p c)) = replay (p_delegate p) (delegate_calls es).
Proof.
  revert p.
  induction c as [a|e|k IH|k IH|n dt k IH|k IH|m k IH|buf src k IH|k IH];
    intros p; cbn [run_local].
  - exists []. cbn. now rewrite app_nil_r.
  - exists []. cbn. now rewrite app_nil_r.
  - apply IH.
  - apply IH.
  - destruct (n <? 0).
    + exists []. cbn. now rewrite app_nil_r.
    + destruct (IH (uninit p n dt) (log p (EvEmpty n dt))) as (es & Hlog & Hd).
      exists (EvEmpty n dt :: es). split.
      * rewrite Hlog. cbn. now rewrite <- app_assoc.
      * rewrite Hd. reflexivity.
  - destruct (p_delegate p) as [t|] eqn:Hp.
    + destruct (IH (log p EvAssertDelegate)) as (es & Hlog & Hd).
      exists (EvAssertDelegate :: es). split.
      * rewrite Hlog. cbn. now rewrite <- app_assoc.
      * rewrite Hd. cbn. now rewrite Hp.
    + exists [EvAssertDelegate]. cbn. auto.
  - destruct (p_delegate p) as [t|] eqn:Hp.
    + destruct (snd (invoke t m)) as [v|e].
      * destruct (IH v (set_delegate (log p (EvDelegate m)) (fst (invoke t m))))
          as (es & Hlog & Hd).
        exists (EvDelegate m :: es). split.
        -- rewrite Hlog. cbn. now rewrite <- app_assoc.
        -- rewrite Hd. reflexivity.
      * exists [EvDelegate m]. cbn. auto.
    + exists [EvDelegate m]. cbn. auto.
  - exists [EvBroadcastEnter buf src]. cbn. auto.
  - exists [EvBarrierEnter]. cbn. auto.
Qed.

Lemma run_group_replay {A : Type} (fuel : nat) (g : list (participant * Proc A)) :
  Forall2 (fun pc po =>
             exists es,
               p_log (fst po) = p_log (fst pc) ++ es /\
               p_delegate (fst po) = replay (p_delegate (fst pc)) (delegate_calls es))
    g (run_group fuel g).
Proof.
  assert (Hfin : forall w (g : list (participant * Proc A)),
    Forall2 (fun pc po =>
             exists es,
               p_log (fst po) = p_log (fst pc) ++ es /\
               p_delegate (fst po) = replay (p_delegate (fst pc)) (delegate_calls es))
      g (map (finalize w) (step_all g))).
  { intros w g0. unfold step_all. rewrite map_map. apply Forall2_map_self.
    intros [p c]. cbn [fst snd finalize]. apply run_local_replay. }
  revert g. induction fuel as [|fuel IH]; intros g; cbn [run_group].
  - apply Hfin.
  - destruct (collective (step_all g)) as [g'|] eqn:Hc; [|apply Hfin].
    apply collective_resumed in Hc. unfold step_all in Hc.
    apply Forall2_map_left in Hc.
    eapply Forall2_impl; [|exact (Forall2_chain _ _ _ _ _ Hc (IH g'))].
    intros [p c] po (pc' & Hr & (es' & Hlog' & Hd')). cbn [fst snd] in *.
    destruct (run_local_replay c p) as (es & Hlog & Hd).
    unfold resumed in Hr.
    destruct (snd (run_local p c)) as [a|e|buf src k|k]; try contradiction.
    + destruct Hr as (sb & ->). cbn [fst snd log p_log p_delegate] in *.
      exists (es ++ EvBroadcastExit (receive buf sb) :: es'). split.
      * rewrite Hlog', Hlog. now rewrite <- !app_assoc.
      * rewrite Hd', Hd, delegate_calls_app, replay_app. reflexivity.
    + subst pc'. cbn [fst snd log p_log p_delegate] in *.
      exists (es ++ EvBarrierExit :: es'). split.
      * rewrite Hlog', Hlog. now rewrite <- !app_assoc.
      * rewrite Hd', Hd, delegate_calls_app, replay_app. reflexivity.
Qed.

(** X14 (the trial changes only through the call).  In every run of a method of
    the wrapper, a process ends with the trial reference it had, or, on
    rank 0, with the trial in the state that the trial's own method of that
    name leaves it in. *)
Theorem trial_changes_only_by_the_call (m : method) (w : list participant) (fuel : nat) :
  Forall2 (fun p po =>
             p_delegate (fst po) = p_delegate p \/
             exists t, p_rank p = 0 /\ p_delegate p = Some t /\
                       p_delegate (fst po) = Some (fst (invoke t m)))
    w (run_group fuel (call_on_all (facade m) w)).
Proof.
  pose proof (run_group_replay fuel (call_on_all (facade m) w)) as Hrep.
  unfold call_on_all in Hrep at 1. apply Forall2_map_left in Hrep.
  pose proof (facade_trace m w fuel) as Htr.
  pose proof (followers_quiet := quiet_group fuel (call_on_all (facade m) w)).
  unfold call_on_all in followers_quiet at 1. apply Forall2_map_left in followers_quiet.
  revert Hrep Htr followers_quiet.
  generalize (run_group fuel (call_on_all (facade m) w)). intros outs Hrep.
  induction Hrep as [|p po w0 outs0 (es & Hlog & Hd) _ IH]; intros Htr Hq;
    [constructor|].
  inversion Htr as [|? ? ? ? (es2 & s' & Hlog2 & Hst) Htr']; subst.
  inversion Hq as [|? ? ? ? Hq1 Hq']; subst.
  constructor; [|now apply IH].
  cbn [fst snd] in *.
  rewrite Hlog in Hlog2. apply app_inv_head in Hlog2. subst es2.
  destruct (steps_allowed_calls _ _ _ _ _ _ Hst) as [Hlen Hall]. cbn [fst] in Hlen.
  destruct (delegate_calls es) as [|m1 [|m2 ms]] eqn:Hcalls.
  - left. exact Hd.
  - apply Forall_inv in Hall. subst m1.
    destruct (Z.eq_dec (p_rank p) 0) as [Hr|Hr].
    + destruct (p_delegate p) as [t|] eqn:Hp.
      * right. exists t. auto.
      * left. exact Hd.
    + left. destruct (Hq1 (facade_quiet m _ _ _ Hr)) as (_ & _ & _ & Hsame & _).
      exact Hsame.
  - cbn in Hlen. lia.
Qed.

End Properties.

(** * The protocol on concrete groups *)

(** ** A pickle of 2^31 bytes *)

Section Overflow.

#[local] Existing Instances Ref.pynum Ref.torch Ref.huge_pickle Ref.trial_model.

(** A pickle of 2^31 bytes is not transferred: the length does not fit the
    [torch.int] size buffer, the leader raises when it stores it, and the
    process of rank 1 never leaves the first broadcast. *)
Lemma size_negotiation_overflow :
  dumps (VDict []) = Ok Ref.huge /\
  Z.of_nat (List.length Ref.huge) = 2 ^ 31 /\
  map snd (run_group 2 (call_on_all (facade M_params) Ref.group2))
  = [Raised RuntimeError; Blocked].
Proof.
  assert (Hlen : Z.of_nat (List.length Ref.huge) = 2 ^ 31).
  { unfold Ref.huge. rewrite repeat_length. apply Z2Nat.id. lia. }
  split; [reflexivity|]. split; [exact Hlen|].
  change (facade M_params) with (_call_and_communicate_obj (func_of M_params)).
  unfold Ref.group2.
  assert (Hw : well_formed [Ref.proc 0 (Some Ref.trial0); Ref.proc 1 None]).
  { split; [discriminate|reflexivity]. }
  assert (Hlead :
    run_local (Ref.proc 0 (Some Ref.trial0)) (_call_and_communicate_obj (func_of M_params))
    = (set_delegate
         (logs (log (Ref.proc 0 (Some Ref.trial0)) (EvEmpty 1 torch_int))
            [EvAssertDelegate; EvDelegate M_params])
         (fst (invoke Ref.trial0 M_params)),
       Failed RuntimeError)).
  { apply obj_leader_size_raises with (r := VDict []) (payload := Ref.huge).
    - reflexivity.
    - apply func_of_ok with (t := Ref.trial0); reflexivity.
    - reflexivity.
    - rewrite Hlen. reflexivity. }
  rewrite (obj_group_raises _ _ _ _ _ 1 Hw Hlead).
  reflexivity.
Qed.

End Overflow.

Section Forgetful.

#[local] Existing Instances Ref.pynum Ref.torch Ref.forgetful_pickle Ref.trial_model.

(** With a pickle that does not read back what it wrote, the leader itself
    returns what was read back, not the trial's answer. *)
Example leader_returns_what_was_read_back :
  snd (invoke Ref.trial0 M_params) = Ok (VDict []) /\
  map snd (run_group 2 (call_on_all params Ref.group2))
  = [Returned VNone; Returned VNone].
Proof. split; reflexivity. Qed.

End Forgetful.

Section Witnesses.

#[local] Existing Instances Ref.pynum Ref.torch Ref.pickle Ref.trial_model.

Lemma group2_well_formed : well_formed Ref.group2.
Proof. split; [discriminate|reflexivity]. Defined.


Lemma group2_no_trial_well_formed : well_formed Ref.group2_no_trial.
Proof. split; [discriminate|reflexivity]. Defined.

(** Four processes; the leader proposes a float; all four return the same
    float. *)
Lemma facade_agreement_witness :
  side_effecting Ref.suggest_x = false /\
  Forall (fun qo => snd qo = Returned (@VFloat Ref.pynum 16))
    (run_group 2
       (call_on_all (facade Ref.suggest_x)
          Ref.group4)).
Proof.
  split; [reflexivity|].
  eapply (facade_agreement Ref.suggest_x
            Ref.group4 2 _ (@VFloat Ref.pynum 16)).
  - reflexivity.
  - left. reflexivity.
Defined.

Lemma size_negotiation_witness :
  well_formed Ref.group2 /\
  dumps VNone = Ok [x80; x02; x4e; x2e] /\
  Z.of_nat (List.length [x80; x02; x4e; x2e]) < 2 ^ 31 /\
  map (fun po => (p_log (fst po), snd po))
    (run_group 2 (call_on_all (_call_and_communicate_obj (func_of M_datetime_start))
                    Ref.group2))
  = [([EvEmpty 1 torch_int; EvAssertDelegate; EvDelegate M_datetime_start;
       EvBroadcastEnter {| t_dtype := torch_int; t_data := [CInt 4]; t_device := cpu |} 0;
       EvBroadcastExit {| t_dtype := torch_int; t_data := [CInt 4]; t_device := cpu |};
       EvBroadcastEnter (tensor_of_bytes [x80; x02; x4e; x2e]) 0;
       EvBroadcastExit (tensor_of_bytes [x80; x02; x4e; x2e])],
      Returned VNone);
     ([EvEmpty 1 torch_int;
       EvBroadcastEnter {| t_dtype := torch_int; t_data := [CInt 85]; t_device := cpu |} 0;
       EvBroadcastExit {| t_dtype := torch_int; t_data := [CInt 4]; t_device := cpu |};
       EvEmpty 4 torch_uint8;
       EvBroadcastEnter {| t_dtype := torch_uint8;
                           t_data := [CInt 85; CInt 85; CInt 85; CInt 85];
                           t_device := cpu |} 0;
       EvBroadcastExit (tensor_of_bytes [x80; x02; x4e; x2e])],
      Returned VNone)].
Proof.
  assert (Hf : run_local (log (Ref.proc 0 (Some Ref.trial0)) (EvEmpty 1 torch_int))
                 (func_of M_datetime_start)
               = (set_delegate
                    (logs (log (Ref.proc 0 (Some Ref.trial0)) (EvEmpty 1 torch_int))
                       [EvAssertDelegate; EvDelegate M_datetime_start])
                    Ref.trial0,
                  Done VNone)) by reflexivity.
  assert (Hd : dumps VNone = Ok [x80; x02; x4e; x2e]) by reflexivity.
  assert (Hlen : Z.of_nat (List.length [x80; x02; x4e; x2e]) < 2 ^ 31) by reflexivity.
  split; [exact group2_well_formed|]. split; [exact Hd|]. split; [exact Hlen|].
  unfold Ref.group2.
  rewrite (proj1 (size_negotiation (func_of M_datetime_start)
                    (Ref.proc 0 (Some Ref.trial0)) _ [Ref.proc 1 None]
                    VNone [x80; x02; x4e; x2e] 0
                    group2_well_formed Hf Hd Hlen)).
  reflexivity.
Defined.

(** Two processes; the leader attaches the note "b" : 1.  Both return after
    the barrier, and only the leader's trial holds the note. *)
Lemma leader_exclusivity_witness :
  side_effecting (M_set_user_attr "b" (VInt 1)) = true /\
  well_formed Ref.group2 /\
  map (fun po => (p_delegate (fst po), snd po))
    (run_group 1 (call_on_all (facade (M_set_user_attr "b" (VInt 1))) Ref.group2))
  = [(Some {| Ref.rt_number := 7; Ref.rt_params := [];
              Ref.rt_user_attrs := [("b"%string, VInt 1)];
              Ref.rt_system_attrs := []; Ref.rt_reports := [] |},
      Returned VNone);
     (None, Returned VNone)] /\
  Forall2 (fun p po =>
             snd po = Returned VNone /\
             exists es,
               p_log (fst po) = p_log p ++ es ++ [EvBarrierEnter; EvBarrierExit] /\
               delegate_calls es
               = (if p_rank p =? 0 then [M_set_user_attr "b" (VInt 1)] else []) /\
               existsb enters_collective es = false)
    Ref.group2
    (run_group 1 (call_on_all (facade (M_set_user_attr "b" (VInt 1))) Ref.group2)).
Proof.
  assert (Hs : side_effecting (M_set_user_attr "b" (VInt 1)) = true) by reflexivity.
  assert (Hd : p_delegate (Ref.proc 0 (Some Ref.trial0)) = Some Ref.trial0)
    by reflexivity.
  assert (Hi : snd (invoke Ref.trial0 (M_set_user_attr "b" (VInt 1))) = Ok VNone)
    by reflexivity.
  split; [exact Hs|]. split; [exact group2_well_formed|]. split; [reflexivity|].
  exact (leader_exclusivity (M_set_user_attr "b" (VInt 1))
           (Ref.proc 0 (Some Ref.trial0)) [Ref.proc 1 None] Ref.trial0 VNone 0
           Hs group2_well_formed Hd Hi).
Defined.

(** Two processes read the number of the trial, 7. *)
Lemma scalar_broadcast_steps_witness :
  well_formed Ref.group2 /\
  store torch_int (VInt 7) = Ok (CInt 7) /\
  map (fun po => (p_log (fst po), snd po))
    (run_group 1 (call_on_all (_call_and_communicate (func_of M_number) torch_int)
                    Ref.group2))
  = [([EvEmpty 1 torch_int; EvAssertDelegate; EvDelegate M_number;
       EvBroadcastEnter {| t_dtype := torch_int; t_data := [CInt 7]; t_device := cpu |} 0;
       EvBroadcastExit {| t_dtype := torch_int; t_data := [CInt 7]; t_device := cpu |}],
      Returned (VInt 7));
     ([EvEmpty 1 torch_int;
       EvBroadcastEnter {| t_dtype := torch_int; t_data := [CInt 85]; t_device := cpu |} 0;
       EvBroadcastExit {| t_dtype := torch_int; t_data := [CInt 7]; t_device := cpu |}],
      Returned (VInt 7))].
Proof.
  assert (Hf : run_local (log (Ref.proc 0 (Some Ref.trial0)) (EvEmpty 1 torch_int))
                 (func_of M_number)
               = (set_delegate
                    (logs (log (Ref.proc 0 (Some Ref.trial0)) (EvEmpty 1 torch_int))
                       [EvAssertDelegate; EvDelegate M_number])
                    Ref.trial0,
                  Done (VInt 7))) by reflexivity.
  assert (Hs : store torch_int (VInt 7) = Ok (CInt 7)) by reflexivity.
  split; [exact group2_well_formed|]. split; [exact Hs|].
  unfold Ref.group2.
  rewrite (proj1 (scalar_broadcast_steps (func_of M_number) torch_int
                    (Ref.proc 0 (Some Ref.trial0)) _ [Ref.proc 1 None]
                    (VInt 7) (CInt 7) 0 group2_well_formed Hf Hs)).
  reflexivity.
Defined.

(** Two processes, none of which was given the trial. *)
Lemma absent_trial_raises_on_leader_witness :
  well_formed Ref.group2_no_trial /\
  p_delegate (Ref.proc 0 None) = None /\
  exists (l' : participant) (F : participant -> participant),
    run_group 1 (call_on_all (facade M_number) Ref.group2_no_trial) =
    (l', Raised AssertionError) :: map (fun p => (F p, Blocked)) [Ref.proc 1 None]
    /\ exists es, p_log l' = p_log (Ref.proc 0 None) ++ es /\
                  existsb enters_collective es = false.
Proof.
  split; [exact group2_no_trial_well_formed|]. split; [reflexivity|].
  exact (absent_trial_raises_on_leader M_number (Ref.proc 0 None) [Ref.proc 1 None] 0
           group2_no_trial_well_formed eq_refl).
Defined.

(** The leader raises and the process of rank 1 is left waiting in the
    broadcast: a trial missing on rank 0 does block the group. *)
Lemma absent_trial_blocks_the_others :
  p_delegate (Ref.proc 0 None) = None /\
  map snd (run_group 2 (call_on_all (facade M_number) Ref.group2_no_trial))
  = [Raised AssertionError; Blocked].
Proof. split; reflexivity. Qed.

Lemma pickle_round_trip_witness :
  serializable (VInt 5) /\ rbind (_to_tensor (VInt 5)) _from_tensor = Ok (VInt 5).
Proof.
  assert (Hs : serializable (VInt 5)).
  { exists [x80; x02; x4b; x05; x2e]. split; reflexivity. }
  split; [exact Hs|]. exact (pickle_round_trip (VInt 5) Hs).
Defined.


Lemma leader_deserializes_own_buffer_witness :
  well_formed Ref.group2 /\
  dumps VNone = Ok [x80; x02; x4e; x2e] /\
  Forall (fun po => snd po = outcome_of (rbind (_to_tensor VNone) _from_tensor))
    (run_group 2 (call_on_all (_call_and_communicate_obj (func_of M_datetime_start))
                    Ref.group2)).
Proof.
  assert (Hf : run_local (log (Ref.proc 0 (Some Ref.trial0)) (EvEmpty 1 torch_int))
                 (func_of M_datetime_start)
               = (set_delegate
                    (logs (log (Ref.proc 0 (Some Ref.trial0)) (EvEmpty 1 torch_int))
                       [EvAssertDelegate; EvDelegate M_datetime_start])
                    Ref.trial0,
                  Done VNone)) by reflexivity.
  assert (Hd : dumps VNone = Ok [x80; x02; x4e; x2e]) by reflexivity.
  assert (Hlen : Z.of_nat (List.length [x80; x02; x4e; x2e]) < 2 ^ 31) by reflexivity.
  split; [exact group2_well_formed|]. split; [exact Hd|].
  exact (proj2 (leader_deserializes_own_buffer (func_of M_datetime_start)
                  (Ref.proc 0 (Some Ref.trial0)) _ [Ref.proc 1 None]
                  VNone [x80; x02; x4e; x2e] 0
                  group2_well_formed Hf Hd Hlen)).
Defined.

(** In a group of four, the processes of rank 1, 2 and 3 do not reach the
    trial. *)
Lemma followers_never_dereference_witness :
  Forall2 (fun p po => p_rank p <> 0 -> untouched p (fst po))
    Ref.group4 (run_group 2 (call_on_all (facade Ref.suggest_x) Ref.group4)).
Proof. exact (followers_never_dereference Ref.suggest_x Ref.group4 2). Defined.

(** Nothing was reported, the trial answers [False], both processes return 0. *)
Lemma should_prune_returns_int_witness :
  well_formed Ref.group2 /\
  snd (invoke Ref.trial0 M_should_prune) = Ok (VBool false) /\
  Forall (fun po => snd po = Returned (VInt 0))
    (run_group 1 (call_on_all should_prune Ref.group2)).
Proof.
  assert (Hd : p_delegate (Ref.proc 0 (Some Ref.trial0)) = Some Ref.trial0)
    by reflexivity.
  assert (Hi : snd (invoke Ref.trial0 M_should_prune) = Ok (VBool false))
    by reflexivity.
  split; [exact group2_well_formed|]. split; [exact Hi|].
  exact (proj1 (should_prune_returns_int (Ref.proc 0 (Some Ref.trial0))
                  [Ref.proc 1 None] Ref.trial0 (VBool false) 0
                  group2_well_formed Hd Hi)).
Defined.

End Witnesses.

(** * Further runs on concrete groups *)

Section WriteOnly.

#[local] Existing Instances Ref.pynum Ref.torch Ref.write_only_pickle Ref.trial_model.

(** The start time [None] is written as four bytes that cannot be read:
    both processes raise. *)
Lemma unpickling_error_on_every_process_witness :
  scalar_kind M_datetime_start = None /\
  side_effecting M_datetime_start = false /\
  well_formed Ref.group2 /\
  snd (invoke Ref.trial0 M_datetime_start) = Ok VNone /\
  dumps VNone = Ok [x80; x02; x4e; x2e] /\
  loads [x80; x02; x4e; x2e] = Err UnpicklingError /\
  Forall (fun po => snd po = Raised UnpicklingError)
    (run_group 2 (call_on_all (facade M_datetime_start) Ref.group2)).
Proof.
  assert (Hw : well_formed Ref.group2) by (split; [discriminate|reflexivity]).
  assert (Hk : scalar_kind M_datetime_start = None) by reflexivity.
  assert (Hs : side_effecting M_datetime_start = false) by reflexivity.
  assert (Hd : p_delegate (Ref.proc 0 (Some Ref.trial0)) = Some Ref.trial0)
    by reflexivity.
  assert (Hi : snd (invoke Ref.trial0 M_datetime_start) = Ok VNone) by reflexivity.
  assert (Hp : dumps VNone = Ok [x80; x02; x4e; x2e]) by reflexivity.
  assert (Hlen : Z.of_nat (List.length [x80; x02; x4e; x2e]) < 2 ^ 31) by reflexivity.
  assert (Hl : loads [x80; x02; x4e; x2e] = Err UnpicklingError) by reflexivity.
  repeat (split; [assumption|]).
  exact (unpickling_error_on_every_process M_datetime_start
           (Ref.proc 0 (Some Ref.trial0)) [Ref.proc 1 None] Ref.trial0 VNone
           [x80; x02; x4e; x2e] UnpicklingError 0 Hk Hs Hw Hd Hi Hp Hlen Hl).
Defined.

End WriteOnly.

Section MoreWitnesses.

#[local] Existing Instances Ref.pynum Ref.torch Ref.pickle Ref.trial_model.

Lemma trial_exception_blocks_group_witness :
  well_formed Ref.group2 /\
  snd (invoke Ref.trial0 Ref.suggest_nothing) = Err ValueError /\
  map snd (run_group 1 (call_on_all (facade Ref.suggest_nothing) Ref.group2))
  = [Raised ValueError; Blocked].
Proof.
  assert (Hd : p_delegate (Ref.proc 0 (Some Ref.trial0)) = Some Ref.trial0)
    by reflexivity.
  assert (Hi : snd (invoke Ref.trial0 Ref.suggest_nothing) = Err ValueError)
    by reflexivity.
  split; [exact group2_well_formed|]. split; [exact Hi|].
  destruct (trial_exception_blocks_group Ref.suggest_nothing
              (Ref.proc 0 (Some Ref.trial0)) [Ref.proc 1 None] Ref.trial0 ValueError 0
              group2_well_formed Hd Hi) as (l' & F & Hrun & _).
  unfold Ref.group2. rewrite Hrun. reflexivity.
Defined.

(** The trial answers 2^31 to [suggest_int]; the suggestion is recorded in
    the trial, the leader raises and rank 1 waits. *)
Lemma unstorable_result_blocks_group_witness :
  scalar_kind Ref.suggest_big = Some torch_int /\
  well_formed Ref.group2 /\
  snd (invoke Ref.trial0 Ref.suggest_big) = Ok (VInt (2 ^ 31)) /\
  store torch_int (VInt (2 ^ 31)) = Err RuntimeError /\
  map snd (run_group 1 (call_on_all (facade Ref.suggest_big) Ref.group2))
  = [Raised RuntimeError; Blocked].
Proof.
  assert (Hk : scalar_kind Ref.suggest_big = Some torch_int) by reflexivity.
  assert (Hd : p_delegate (Ref.proc 0 (Some Ref.trial0)) = Some Ref.trial0)
    by reflexivity.
  assert (Hi : snd (invoke Ref.trial0 Ref.suggest_big) = Ok (VInt (2 ^ 31)))
    by reflexivity.
  assert (Hs : store torch_int (closure_result Ref.suggest_big (VInt (2 ^ 31)))
               = Err RuntimeError) by reflexivity.
  split; [exact Hk|]. split; [exact group2_well_formed|]. split; [exact Hi|].
  split; [exact Hs|].
  destruct (unstorable_result_blocks_group Ref.suggest_big torch_int
              (Ref.proc 0 (Some Ref.trial0)) [Ref.proc 1 None] Ref.trial0
              (VInt (2 ^ 31)) RuntimeError 0
              Hk group2_well_formed Hd Hi Hs) as (l' & F & Hrun & _).
  unfold Ref.group2. rewrite Hrun. reflexivity.
Defined.

Lemma unpicklable_result_blocks_group_witness :
  scalar_kind Ref.suggest_300 = None /\
  side_effecting Ref.suggest_300 = false /\
  well_formed Ref.group2 /\
  snd (invoke Ref.trial0 Ref.suggest_300) = Ok (VInt 300) /\
  dumps (VInt 300) = Err PicklingError /\
  map snd (run_group 1 (call_on_all (facade Ref.suggest_300) Ref.group2))
  = [Raised PicklingError; Blocked].
Proof.
  assert (Hk : scalar_kind Ref.suggest_300 = None) by reflexivity.
  assert (Hs : side_effecting Ref.suggest_300 = false) by reflexivity.
  assert (Hd : p_delegate (Ref.proc 0 (Some Ref.trial0)) = Some Ref.trial0)
    by reflexivity.
  assert (Hi : snd (invoke Ref.trial0 Ref.suggest_300) = Ok (VInt 300)) by reflexivity.
  assert (Hp : dumps (VInt 300) = Err PicklingError) by reflexivity.
  repeat (split; [first [assumption | exact group2_well_formed]|]).
  destruct (unpicklable_result_blocks_group Ref.suggest_300
              (Ref.proc 0 (Some Ref.trial0)) [Ref.proc 1 None] Ref.trial0
              (VInt 300) PicklingError 0
              Hk Hs group2_well_formed Hd Hi Hp) as (l' & F & Hrun & _).
  unfold Ref.group2. rewrite Hrun. reflexivity.
Defined.

(** A [torch.int] tensor that holds 1 and 255 reads as two bytes. *)
Lemma bytearray_tolist_inverse_witness :
  bytearray (tolist {| t_dtype := torch_int; t_data := [CInt 1; CInt 255];
                       t_device := cpu |}) = Ok [x01; xff] /\
  t_data (tensor_of_bytes [x01; xff]) = [CInt 1; CInt 255].
Proof.
  assert (H : bytearray (tolist {| t_dtype := torch_int; t_data := [CInt 1; CInt 255];
                                   t_device := cpu |}) = Ok [x01; xff])
    by reflexivity.
  split; [exact H|]. exact (bytearray_tolist_inverse _ _ H).
Defined.

Lemma to_tensor_carries_the_pickle_witness :
  _to_tensor (VInt 5) = Ok (tensor_of_bytes [x80; x02; x4b; x05; x2e]) /\
  shape0 (tensor_of_bytes [x80; x02; x4b; x05; x2e]) = 5.
Proof.
  assert (H : _to_tensor (VInt 5) = Ok (tensor_of_bytes [x80; x02; x4b; x05; x2e]))
    by reflexivity.
  split; [exact H|].
  destruct (to_tensor_carries_the_pickle _ _ H) as (_ & _ & b & Hb & Hlen & _).
  rewrite Hlen. inversion Hb. reflexivity.
Defined.

(** A tensor that holds 256 is not a sequence of bytes. *)
Lemma from_tensor_rejects_non_bytes_witness :
  _from_tensor {| t_dtype := torch_int; t_data := [CInt 78; CInt 256];
                  t_device := cpu |} = Err TypeError \/
  _from_tensor {| t_dtype := torch_int; t_data := [CInt 78; CInt 256];
                  t_device := cpu |} = Err ValueError.
Proof.
  apply (from_tensor_rejects_non_bytes
           {| t_dtype := torch_int; t_data := [CInt 78; CInt 256]; t_device := cpu |}
           (CInt 256)).
  - right. left. reflexivity.
  - intros z H. inversion H. lia.
Defined.

Lemma call_ends_after_its_collectives_witness :
  (collectives M_params <= 5)%nat /\
  run_group 5 (call_on_all (facade M_params) Ref.group4)
  = run_group 2 (call_on_all (facade M_params) Ref.group4).
Proof.
  assert (H : (collectives M_params <= 5)%nat) by (cbn; lia).
  split; [exact H|].
  exact (proj2 (call_ends_after_its_collectives M_params Ref.group4 5 H)).
Defined.

(** Both processes read the number 7 and report it at step 0: the trial of
    rank 0 holds the report of 7. *)
Lemma agreed_value_continues_witness :
  side_effecting M_number = false /\
  map (fun po => (p_delegate (fst po), snd po))
    (run_group 2
       (call_on_all (bind (facade M_number) (fun v => facade (M_report v (VInt 0))))
          Ref.group2))
  = [(Some {| Ref.rt_number := 7; Ref.rt_params := []; Ref.rt_user_attrs := [];
              Ref.rt_system_attrs := []; Ref.rt_reports := [(VInt 7, VInt 0)] |},
      Returned VNone);
     (None, Returned VNone)].
Proof.
  assert (Hs : side_effecting M_number = false) by reflexivity.
  split; [exact Hs|].
  destruct (agreed_value_continues M_number Ref.group2 1 1
              (fst (hd (Ref.proc 0 None, Blocked)
                      (run_group 1 (call_on_all (facade M_number) Ref.group2))))
              (VInt 7) (fun v => facade (M_report v (VInt 0))) Hs
              (or_introl eq_refl)) as (w' & Hw' & Hrun).
  assert (Ew : w' = map fst (run_group 1 (call_on_all (facade M_number) Ref.group2))).
  { rewrite Hw', map_map. cbn [fst]. symmetry. apply map_id. }
  subst w'. change (1 + 1)%nat with 2%nat in Hrun. rewrite Hrun.
  - reflexivity.
  - repeat constructor; discriminate.
Defined.

(** After [report(1, 0)] both processes ask [should_prune]: the trial has the
    report and both return 1. *)
Lemma next_call_follows_the_mutation_witness :
  side_effecting Ref.report_1 = true /\
  well_formed Ref.group2 /\
  snd (invoke Ref.trial0 Ref.report_1) = Ok VNone /\
  map snd
    (run_group 2
       (call_on_all (bind (facade Ref.report_1) (fun _ => should_prune)) Ref.group2))
  = [Returned (VInt 1); Returned (VInt 1)].
Proof.
  assert (Hs : side_effecting Ref.report_1 = true) by reflexivity.
  assert (Hd : p_delegate (Ref.proc 0 (Some Ref.trial0)) = Some Ref.trial0)
    by reflexivity.
  assert (Hi : snd (invoke Ref.trial0 Ref.report_1) = Ok VNone) by reflexivity.
  split; [exact Hs|]. split; [exact group2_well_formed|]. split; [exact Hi|].
  unfold Ref.group2.
  rewrite (next_call_follows_the_mutation Ref.report_1
             (Ref.proc 0 (Some Ref.trial0)) [Ref.proc 1 None] Ref.trial0 VNone
             should_prune 1 Hs group2_well_formed Hd Hi).
  reflexivity.
Defined.

End MoreWitnesses.
